(** * smart_info: the report parser and emitter of Linux-SMART

    A shallow embedding of [src/smart_info.cpp].  The first module models the
    parts of the C and C++ standard libraries the program calls (character
    classification in the "C" locale, [std::string], [std::stoll],
    [std::map], [std::regex] in its default ECMAScript grammar); the second
    one is the program itself, function by function, for the values it
    computes; the third one adds what becomes of a run when a search of
    [std::regex] does not return; the theorems follow. *)

From Stdlib Require Import String Ascii List ZArith Lia Bool.
From Stdlib Require Import Sorted OrderedTypeEx DecimalString.
From Stdlib Require DecimalPos.
Import ListNotations.
Local Open Scope list_scope.
Local Open Scope string_scope.
Local Open Scope Z_scope.

(* ================================================================== *)
(** ** The C++ runtime the program relies on *)
(* ================================================================== *)

Module Cxx.

(** *** Exceptions

    A call that may throw returns a [result]; [Throw] carries the exception
    the standard prescribes. *)

Inductive exn : Type :=
| out_of_range
| invalid_argument
| regex_error.

Inductive result (A : Type) : Type :=
| Ok (a : A)
| Throw (e : exn).

Arguments Ok {A} a.
Arguments Throw {A} e.

Definition bind {A B : Type} (r : result A) (f : A -> result B) : result B :=
  match r with
  | Ok a => f a
  | Throw e => Throw e
  end.

Notation "x <- c1 ;; c2" := (bind c1 (fun x => c2))
  (at level 61, c1 at next level, right associativity).

(** *** <cctype>, "C" locale *)

Definition code (c : ascii) : Z := Z.of_N (N_of_ascii c).

Definition in_range (lo hi c : ascii) : bool :=
  (code lo <=? code c) && (code c <=? code hi).

(** [isspace]: space, \t, \n, \v, \f, \r. *)
Definition isspace (c : ascii) : bool :=
  (code c =? 32) || ((9 <=? code c) && (code c <=? 13)).

Definition isupper (c : ascii) : bool := in_range "A" "Z" c.

Definition isdigit (c : ascii) : bool := in_range "0" "9" c.

(** [tolower]: only 'A'..'Z' have a lowercase counterpart. *)
Definition tolower (c : ascii) : ascii :=
  if isupper c then ascii_of_N (N_of_ascii c + 32) else c.

(** *** std::string *)

Definition size (s : string) : Z := Z.of_nat (String.length s).

Definition empty (s : string) : bool :=
  match s with
  | EmptyString => true
  | String _ _ => false
  end.

(** [s.back()] and [s.pop_back()], for a string that is not empty. *)
Fixpoint back (s : string) : ascii :=
  match s with
  | EmptyString => zero
  | String c EmptyString => c
  | String _ s' => back s'
  end.

Fixpoint pop_back (s : string) : string :=
  match s with
  | EmptyString => EmptyString
  | String _ EmptyString => EmptyString
  | String c s' => String c (pop_back s')
  end.

Fixpoint drop (n : nat) (s : string) : string :=
  match n, s with
  | O, _ => s
  | S n', String _ s' => drop n' s'
  | S _, EmptyString => EmptyString
  end.

Fixpoint take (n : nat) (s : string) : string :=
  match n, s with
  | S n', String c s' => String c (take n' s')
  | _, _ => EmptyString
  end.

(** [size_t] is 64 bits wide; [string::npos] is its largest value. *)
Definition size_max : Z := 2 ^ 64.
Definition npos : Z := size_max - 1.
Definition size_add (a b : Z) : Z := (a + b) mod size_max.

(** [s.find(c)]: the index of the first occurrence, or [npos]. *)
Fixpoint find_from (i : Z) (c : ascii) (s : string) : Z :=
  match s with
  | EmptyString => npos
  | String d s' => if Ascii.eqb d c then i else find_from (i + 1) c s'
  end.

Definition find (s : string) (c : ascii) : Z := find_from 0 c s.

(** [s.substr(pos)] throws [std::out_of_range] when [pos > size()]. *)
Definition substr (s : string) (pos : Z) : result string :=
  if size s <? pos then Throw out_of_range
  else Ok (drop (Z.to_nat pos) s).

(** [s.substr(pos, n)]: at most [n] characters. *)
Definition substr_n (s : string) (pos n : Z) : result string :=
  if size s <? pos then Throw out_of_range
  else Ok (take (Z.to_nat n) (drop (Z.to_nat pos) s)).

(** [s.rfind(p, 0) == 0]: the only position the backward search may report
    is 0, so the test says that [s] starts with [p]. *)
Definition starts_with (s p : string) : bool := String.prefix p s.

(** [std::remove] followed by [erase]: delete every occurrence of [c]. *)
Fixpoint remove_char (c : ascii) (s : string) : string :=
  match s with
  | EmptyString => EmptyString
  | String d s' =>
      if Ascii.eqb d c then remove_char c s' else String d (remove_char c s')
  end.

(** [std::transform] over the characters, in place. *)
Fixpoint transform (f : ascii -> ascii) (s : string) : string :=
  match s with
  | EmptyString => EmptyString
  | String c s' => String (f c) (transform f s')
  end.

(** The successive results of [getline(ss, line)] on a stream holding [s]:
    the segments between '\n', the last one only if it is not empty. *)
Fixpoint getlines_aux (cur : string) (s : string) : list string :=
  match s with
  | EmptyString => if empty cur then [] else [cur]
  | String c s' =>
      if Ascii.eqb c "010" then cur :: getlines_aux EmptyString s'
      else getlines_aux (cur ++ String c EmptyString) s'
  end.

Definition getlines (s : string) : list string := getlines_aux EmptyString s.

(** [stream >> token]: skip leading white space, then read up to the next
    white space; the token is empty when nothing is left. *)
Fixpoint skip_space (s : string) : string :=
  match s with
  | EmptyString => EmptyString
  | String c s' => if isspace c then skip_space s' else s
  end.

Fixpoint until_space (s : string) : string :=
  match s with
  | EmptyString => EmptyString
  | String c s' => if isspace c then EmptyString else String c (until_space s')
  end.

Definition first_token (s : string) : string := until_space (skip_space s).

(** *** std::stoll

    [strtoll] in base 10: leading white space, an optional sign, then the
    longest run of digits.  No digit: [std::invalid_argument].  A value that
    does not fit [long long]: [std::out_of_range]. *)

Definition LLONG_MAX : Z := 2 ^ 63 - 1.
Definition LLONG_MIN : Z := - 2 ^ 63.

Fixpoint digits (s : string) : string :=
  match s with
  | EmptyString => EmptyString
  | String c s' => if isdigit c then String c (digits s') else EmptyString
  end.

Fixpoint digits_value (acc : Z) (s : string) : Z :=
  match s with
  | EmptyString => acc
  | String c s' => digits_value (10 * acc + (code c - 48)) s'
  end.

(** The optional sign: whether it is a minus, and what follows it. *)
Definition split_sign (s : string) : bool * string :=
  match s with
  | String "-" r => (true, r)
  | String "+" r => (false, r)
  | _ => (false, s)
  end.

Definition stoll (s : string) : result Z :=
  let '(neg, s2) := split_sign (skip_space s) in
  let ds := digits s2 in
  if empty ds then Throw invalid_argument
  else
    let v := if neg : bool then - digits_value 0 ds else digits_value 0 ds in
    if (LLONG_MIN <=? v) && (v <=? LLONG_MAX) then Ok v
    else Throw out_of_range.

(** *** std::map<std::string, V>

    An ordered map: the entries are kept sorted by key ([std::less] on
    [std::string] compares bytes as unsigned, a proper prefix first), and a
    range-for visits them in that order.  The model is the sorted list of
    entries. *)

Definition map (V : Type) : Type := list (string * V).

(** [m[k] = v] *)
Fixpoint map_set {V : Type} (k : string) (v : V) (m : map V) : map V :=
  match m with
  | [] => [(k, v)]
  | (k', v') :: m' =>
      match String.compare k k' with
      | Lt => (k, v) :: m
      | Eq => (k, v) :: m'
      | Gt => (k', v') :: map_set k v m'
      end
  end.

Fixpoint map_find {V : Type} (k : string) (m : map V) : option V :=
  match m with
  | [] => None
  | (k', v') :: m' => if String.eqb k k' then Some v' else map_find k m'
  end.

Definition map_empty {V : Type} (m : map V) : bool :=
  match m with
  | [] => true
  | _ :: _ => false
  end.

Definition keys {V : Type} (m : map V) : list string := List.map fst m.

(** The order of the keys, [std::less<std::string>]. *)
Definition key_lt (a b : string) : Prop := String.compare a b = Lt.

(** *** std::regex, ECMAScript grammar

    The constructs the two patterns of the program use.  Matching is the
    backtracking search of the ECMAScript specification, which is also what
    the library's depth-first executor does: alternatives are tried in
    priority order (a greedy quantifier first tries one more iteration) and
    the first complete match wins. *)

Inductive regex : Type :=
| Bol                          (* ^ *)
| Cls (p : ascii -> bool)      (* one character: a literal, a class, \s, . *)
| Cat (r1 r2 : regex)          (* r1 r2 *)
| Star (r : regex)             (* r* *)
| Plus (r : regex)             (* r+ *)
| Opt (r : regex)              (* r? *)
| Grp (i : nat) (r : regex).   (* the i-th capturing parenthesis *)

(** A [sub_match] is [None] while its group has not taken part in the match;
    converted to a string it is then empty. *)
Definition sub_match : Type := option string.
Definition smatch : Type := list sub_match.

Fixpoint set_sub (i : nat) (v : string) (m : smatch) : smatch :=
  match i, m with
  | O, _ :: m' => Some v :: m'
  | S i', x :: m' => x :: set_sub i' v m'
  | _, [] => []
  end.

(** [m[i]] converted to [std::string]; an index past [m.size()] denotes an
    unmatched [sub_match]. *)
Definition sub_str (m : smatch) (i : nat) : string :=
  match nth_error m i with
  | Some (Some s) => s
  | _ => EmptyString
  end.

Definition msize (m : smatch) : Z := Z.of_nat (List.length m).

(** The characters consumed between two points of the input, the second a
    suffix of the first. *)
Definition consumed (before after : string) : string :=
  take (String.length before - String.length after) before.

(** A matcher takes the rest of the input, whether that point is the start
    of the input, the captures so far and a continuation for what follows. *)
Definition cont : Type := string -> bool -> smatch -> option smatch.
Definition matcher : Type := string -> bool -> smatch -> cont -> option smatch.

(** Greedy iteration.  An iteration that consumes nothing is rejected, so
    the number of iterations is bounded by the length of the input. *)
Fixpoint star (m : matcher) (fuel : nat) (s : string) (bol : bool)
    (caps : smatch) (k : cont) : option smatch :=
  match fuel with
  | O => k s bol caps
  | S fuel' =>
      match m s bol caps
              (fun s1 b1 c1 =>
                 if (String.length s1 <? String.length s)%nat
                 then star m fuel' s1 b1 c1 k else None) with
      | Some c => Some c
      | None => k s bol caps
      end
  end.

Fixpoint rmatch (r : regex) : matcher :=
  fun s bol caps k =>
  match r with
  | Bol => if bol then k s bol caps else None
  | Cls p =>
      match s with
      | String c s' => if p c then k s' false caps else None
      | EmptyString => None
      end
  | Cat r1 r2 => rmatch r1 s bol caps (fun s1 b1 c1 => rmatch r2 s1 b1 c1 k)
  | Star r1 => star (rmatch r1) (String.length s) s bol caps k
  | Plus r1 =>
      rmatch r1 s bol caps
        (fun s1 b1 c1 => star (rmatch r1) (String.length s1) s1 b1 c1 k)
  | Opt r1 =>
      match rmatch r1 s bol caps k with
      | Some c => Some c
      | None => k s bol caps
      end
  | Grp i r1 =>
      rmatch r1 s bol caps (fun s1 b1 c1 => k s1 b1 (set_sub i (consumed s s1) c1))
  end.

(** The search tries every start position from the left, the end of the
    input included; [nsub] is the number of capturing groups. *)
Fixpoint search_at (r : regex) (nsub : nat) (s : string) (bol : bool)
    : option smatch :=
  match rmatch r s bol (repeat None (S nsub))
          (fun s1 _ c1 => Some (set_sub 0 (consumed s s1) c1)) with
  | Some m => Some m
  | None =>
      match s with
      | EmptyString => None
      | String _ s' => search_at r nsub s' false
      end
  end.

(** [regex_search(s, m, re)], for a call that returns: the truth value
    returned and the new value of [m]; after a failed search [m.size()] is
    0.  Whether the call returns is not decided here, the library may end
    it with [std::regex_error] and the matcher may exhaust the stack; the
    module [Outcome] below has that outcome. *)
Definition regex_search (s : string) (re : regex * nat) : bool * smatch :=
  match search_at (fst re) (snd re) s true with
  | Some m => (true, m)
  | None => (false, [])
  end.

(** Character classes of the two patterns. *)
Definition is_char (c d : ascii) : bool := Ascii.eqb d c.

(** [.] matches everything but a line terminator. *)
Definition dot (c : ascii) : bool :=
  negb (Ascii.eqb c "010" || Ascii.eqb c "013").

(** *** Output of an integer with [operator<<] *)
Definition string_of_Z (z : Z) : string := NilZero.string_of_int (Z.to_int z).

End Cxx.

(* ================================================================== *)
(** ** The program *)
(* ================================================================== *)

Module SmartInfo.
Import Cxx.

(** The loops [while (!s.empty() && p(s.front())) s.erase(s.begin())] and
    [while (!s.empty() && p(s.back())) s.pop_back()].  The second one runs
    at most once per character. *)
Fixpoint erase_front_while (p : ascii -> bool) (s : string) : string :=
  match s with
  | EmptyString => EmptyString
  | String c s' => if p c then erase_front_while p s' else s
  end.

Fixpoint pop_back_loop (p : ascii -> bool) (fuel : nat) (s : string) : string :=
  match fuel with
  | O => s
  | S fuel' =>
      if negb (empty s) && p (back s)
      then pop_back_loop p fuel' (pop_back s) else s
  end.

Definition pop_back_while (p : ascii -> bool) (s : string) : string :=
  pop_back_loop p (String.length s) s.

Definition ltrim (s : string) : string := erase_front_while isspace s.
Definition rtrim (s : string) : string := pop_back_while isspace s.

(** The lambda [trim] of [parse_nvme_section]; [main] applies [ltrim] then
    [rtrim] to a line, the same two loops in the same order. *)
Definition trim (s : string) : string := rtrim (ltrim s).

Section World.

(** What [exec_capture] collects from the pipe that [popen] opens for a
    command line: the text the command writes to its standard output, empty
    when the pipe cannot be opened. *)
Variable shell : string -> string.

Definition exec_capture (cmd : string) : string := shell cmd.

Definition find_smartctl : string :=
  let p := exec_capture "command -v smartctl 2>/dev/null" in
  if negb (empty p) then
    pop_back_while
      (fun c => Ascii.eqb c "010" || Ascii.eqb c "013" || isspace c) p
  else EmptyString.

Definition list_devices (smartctl : string) : list string :=
  let out := exec_capture (smartctl ++ " --scan") in
  fold_left
    (fun devs line =>
       if empty line then devs
       else
         let token := first_token line in
         if negb (empty token) then (devs ++ [token])%list else devs)
    (getlines out) [].

Definition run_smartctl (smartctl device : string) : string :=
  exec_capture (smartctl ++ " -a " ++ device ++ " 2>&1").

End World.

(** The double quote, as a character and as a string. *)
Definition dquote : ascii := "034".
Definition quote : string := String dquote EmptyString.

(** [snprintf(buf, sizeof(buf), "\\u%04x", c)] for [c < 0x20] *)
Definition hex_digit (n : Z) : ascii :=
  if n <? 10 then ascii_of_N (Z.to_N (48 + n))
  else ascii_of_N (Z.to_N (87 + n)).

Definition u_escape (c : ascii) : string :=
  "\u00" ++ String (hex_digit (code c / 16))
             (String (hex_digit (code c mod 16)) EmptyString).

Fixpoint json_escape (s : string) : string :=
  match s with
  | EmptyString => EmptyString
  | String c s' =>
      (if Ascii.eqb c dquote then "\" ++ quote
       else if Ascii.eqb c "\" then "\\"
       else if Ascii.eqb c "008" then "\b"
       else if Ascii.eqb c "012" then "\f"
       else if Ascii.eqb c "010" then "\n"
       else if Ascii.eqb c "013" then "\r"
       else if Ascii.eqb c "009" then "\t"
       else if code c <? 32 then u_escape c
       else String c EmptyString) ++ json_escape s'
  end.

Record Field : Type := mkField {
  raw : string;
  unit : string;
  has_num : bool;
  num : Z
}.

(** [bracket_regex]: once the escapes of the string literal of the source
    are resolved the pattern reads  \[ ( .* ) \]  (written here with spaces):
    an opening bracket, a capturing group of any characters, a closing
    bracket. *)
Definition bracket_regex : regex * nat :=
  (Cat (Cls (is_char "[")) (Cat (Grp 1 (Star (Cls dot))) (Cls (is_char "]"))),
   1%nat).

Definition sign_char (c : ascii) : bool :=
  Ascii.eqb c "-" || Ascii.eqb c "+".

Definition digit_or_comma (c : ascii) : bool :=
  in_range "0" "9" c || Ascii.eqb c ",".

Definition unit_char (c : ascii) : bool :=
  in_range "A" "Z" c || in_range "a" "z" c || Ascii.eqb c "%" || Ascii.eqb c ".".

(** [regex num_unit_regex("^\\s*([-+]?[0-9,]+)(?:\\s*([A-Za-z%\.]+))?")]:
    the pattern is "^\s*([-+]?[0-9,]+)(?:\s*([A-Za-z%.]+))?". *)
Definition num_unit_regex : regex * nat :=
  (Cat Bol
     (Cat (Star (Cls isspace))
        (Cat (Grp 1 (Cat (Opt (Cls sign_char)) (Plus (Cls digit_or_comma))))
           (Opt (Cat (Star (Cls isspace)) (Grp 2 (Plus (Cls unit_char))))))),
   2%nat).

(** [try { f.num = stoll(num); f.has_num=true; } catch(...) { f.has_num=false; }] *)
Definition try_stoll (num_s : string) (f : Field) : Field :=
  match stoll num_s with
  | Ok n => mkField (raw f) (unit f) true n
  | Throw _ => mkField (raw f) (unit f) false (num f)
  end.

Definition set_unit (u : string) (f : Field) : Field :=
  mkField (raw f) u (has_num f) (num f).

(** The body of the loop of [parse_nvme_section] from [Field f] to the end
    of the [if]: the field built for the trimmed value [val].  One [smatch m]
    receives the result of every search. *)
Definition field_of_value (val : string) : Field :=
  let f := mkField val EmptyString false 0 in
  let '(found, m) := regex_search val bracket_regex in
  if found then
    let '(found_num, m) := regex_search val num_unit_regex in
    let f :=
      if found_num then try_stoll (remove_char "," (sub_str m 1)) f else f in
    set_unit (sub_str m 1) f
  else
    let '(found_num, m) := regex_search val num_unit_regex in
    if found_num then
      let f := try_stoll (remove_char "," (sub_str m 1)) f in
      if 2 <? msize m then set_unit (sub_str m 2) f else f
    else f.

(** The key normalisation: the [transform] call, then the loop that replaces
    spaces. *)
Definition normalize (key : string) : string :=
  let k := transform (fun c => tolower (if Ascii.eqb c " " then "_"%char else c)) key in
  transform (fun c => if Ascii.eqb c " " then "_"%char else c) k.

(** One iteration of the loop of [parse_nvme_section]. *)
Definition nvme_line (out : map Field) (l : string) : result (map Field) :=
  let p := find l ":" in
  if p =? npos then Ok out
  else
    key <- substr_n l 0 p ;;
    val <- substr l (size_add p 1) ;;
    let key := trim key in
    let val := trim val in
    let k := normalize key in
    Ok (map_set k (field_of_value val) out).

Fixpoint nvme_loop (lines : list string) (out : map Field)
    : result (map Field) :=
  match lines with
  | [] => Ok out
  | l :: lines' => out' <- nvme_line out l ;; nvme_loop lines' out'
  end.

Definition parse_nvme_section (lines : list string) : result (map Field) :=
  nvme_loop lines [].

(** The line feed, as a string. *)
Definition nl : string := String "010" EmptyString.

(** The output stream [js] together with the flag [first]. *)
Definition jstream : Type := (string * bool)%type.

Definition add_comma (st : jstream) : jstream :=
  let '(js, first) := st in
  ((if first then js else js ++ ","), false).

Definition put (text : string) (st : jstream) : jstream :=
  (fst st ++ text, snd st).

(** The text written for one entry of [kv]. *)
Definition json_member (p : string * string) : string :=
  nl ++ "  " ++ quote ++ json_escape (fst p) ++ quote ++ ": "
     ++ quote ++ json_escape (snd p) ++ quote.

(** The text written for one entry of [nvme], after the separating comma. *)
Definition json_field (n : string * Field) : string :=
  nl ++ "    " ++ quote ++ json_escape (fst n) ++ quote ++ ": {"
   ++ nl ++ "      " ++ quote ++ "raw" ++ quote ++ ": "
   ++ quote ++ json_escape (raw (snd n)) ++ quote
   ++ (if has_num (snd n)
       then "," ++ nl ++ "      " ++ quote ++ "value" ++ quote ++ ": "
                ++ string_of_Z (num (snd n))
       else EmptyString)
   ++ (if negb (empty (unit (snd n)))
       then "," ++ nl ++ "      " ++ quote ++ "unit" ++ quote ++ ": "
                ++ quote ++ json_escape (unit (snd n)) ++ quote
       else EmptyString)
   ++ nl ++ "    }".

Definition raw_placeholder : string :=
  nl ++ "  " ++ quote ++ "raw" ++ quote ++ ": "
     ++ quote ++ "REDACTED_RAW_NOT_INCL_IF_NOT_REQUESTED" ++ quote.

(** The [nvme_health] member: the block of [if (!nvme.empty())], with its
    own flag [f2] for the commas between the attributes. *)
Definition nvme_block (nvme : map Field) (st : jstream) : jstream :=
  let st := put (nl ++ "  " ++ quote ++ "nvme_health" ++ quote ++ ": {")
                (add_comma st) in
  let inner :=
    fold_left
      (fun (acc : string * bool) n =>
         let '(js, f2) := acc in
         ((if f2 then js else js ++ ",") ++ json_field n, false))
      nvme (fst st, true) in
  (fst inner ++ nl ++ "  }", snd st).

Definition build_json_from_parsed (kv : map string) (nvme : map Field)
    (include_raw : bool) : string :=
  let st : jstream := ("{", true) in
  let st := fold_left (fun st p => put (json_member p) (add_comma st)) kv st in
  let st := if negb (map_empty nvme) then nvme_block nvme st else st in
  let st := if include_raw then put raw_placeholder (add_comma st) else st in
  fst st ++ nl ++ "}" ++ nl.

(** *** main *)

Record Options : Type := mkOptions {
  list_mode : bool;
  device : string;
  json_out : bool;
  include_raw : bool
}.

Definition no_options : Options := mkOptions false EmptyString false false.

(** The argument loop over [argv[1..argc-1]].  [None]: the help branch was
    taken, which prints the usage line and returns 0 at once. *)
Fixpoint scan_args (args : list string) (o : Options) : option Options :=
  match args with
  | [] => Some o
  | a :: rest =>
      if String.eqb a "--list"
      then scan_args rest (mkOptions true (device o) (json_out o) (include_raw o))
      else if String.eqb a "--json"
      then scan_args rest (mkOptions (list_mode o) (device o) true (include_raw o))
      else if String.eqb a "--include-raw"
      then scan_args rest (mkOptions (list_mode o) (device o) (json_out o) true)
      else
        match rest with
        | v :: rest' =>
            if String.eqb a "--device"
            then scan_args rest' (mkOptions (list_mode o) v (json_out o) (include_raw o))
            else if String.eqb a "-h" || String.eqb a "--help" then None
            else scan_args rest o
        | [] =>
            if String.eqb a "-h" || String.eqb a "--help" then None
            else Some o
        end
  end.

(** The state of the loop over the lines of the report. *)
Record Scan : Type := mkScan {
  kv : map string;
  nvme_lines : list string;
  in_nvme : bool
}.

(** [auto p = t.find(':'); kv[..] = t.substr(p+1); rtrim(kv[..]); ltrim(kv[..]);] *)
Definition header_value (t : string) : result string :=
  let p := find t ":" in
  v <- substr t (size_add p 1) ;;
  Ok (ltrim (rtrim v)).

Definition set_kv (k v : string) (st : Scan) : Scan :=
  mkScan (map_set k v (kv st)) (nvme_lines st) (in_nvme st).

(** The body of the [while (getline(ss,line))] loop of [main]. *)
Definition scan_line (st : Scan) (line : string) : result Scan :=
  let t := rtrim (ltrim line) in
  if empty t then Ok st
  else if starts_with t "Device Model:" || starts_with t "Model Number:" then
    v <- header_value t ;; Ok (set_kv "model" v st)
  else if starts_with t "Serial Number:" then
    v <- header_value t ;; Ok (set_kv "serial" v st)
  else if starts_with t "Firmware Version:" then
    v <- header_value t ;; Ok (set_kv "firmware" v st)
  else if starts_with t "SMART/Health Information" then
    Ok (mkScan (kv st) (nvme_lines st) true)
  else if in_nvme st then
    if starts_with t "Error Information" || starts_with t "Self-test Log"
       || starts_with t "==="
    then Ok (mkScan (kv st) (nvme_lines st) false)
    else Ok (mkScan (kv st) (nvme_lines st ++ [t])%list (in_nvme st))
  else Ok st.

Fixpoint scan_lines (lines : list string) (st : Scan) : result Scan :=
  match lines with
  | [] => Ok st
  | l :: lines' => st' <- scan_line st l ;; scan_lines lines' st'
  end.

(** What [main] computes from the captured report before it prints: the
    identity entries and the NVMe attributes. *)
Record ParsedReport : Type := mkParsed {
  identity : map string;
  nvme : map Field
}.

Definition parse_report (out : string) : result ParsedReport :=
  st <- scan_lines (getlines out) (mkScan [] [] false) ;;
  nvme <- parse_nvme_section (nvme_lines st) ;;
  Ok (mkParsed (kv st) nvme).

Definition model (r : ParsedReport) : option string :=
  map_find "model" (identity r).
Definition serial (r : ParsedReport) : option string :=
  map_find "serial" (identity r).
Definition firmware (r : ParsedReport) : option string :=
  map_find "firmware" (identity r).

(** [kv.count(k) ? kv[k] : "n/a"]: the entry if there is one *)
Definition or_na (k : string) (m : map string) : string :=
  match map_find k m with
  | Some v => v
  | None => "n/a"
  end.

Definition plain_text (device : string) (r : ParsedReport) : string :=
  "Device: " ++ device ++ nl
  ++ "Model: " ++ or_na "model" (identity r) ++ nl
  ++ "Serial: " ++ or_na "serial" (identity r) ++ nl
  ++ "Firmware: " ++ or_na "firmware" (identity r) ++ nl
  ++ (if negb (map_empty (nvme r)) then
        nl ++ "NVMe SMART/Health:" ++ nl
        ++ String.concat EmptyString
             (List.map (fun n => fst n ++ ": " ++ raw (snd n) ++ nl) (nvme r))
      else EmptyString).

Definition devices_json (devs : list string) : string :=
  "{" ++ nl ++ "  " ++ quote ++ "devices" ++ quote ++ ": ["
  ++ String.concat ","
       (List.map (fun d => nl ++ "    " ++ quote ++ json_escape d ++ quote) devs)
  ++ nl ++ "  ]" ++ nl ++ "}" ++ nl.

Definition usage : string :=
  "Usage: smart_info [--list] [--device /dev/sda] [--json] [--include-raw]" ++ nl.

(** What a run leaves behind: the value returned by [main] and the text
    the program writes to [cout] and to [cerr].  What a command started
    without redirection writes to the standard error it inherits is not
    part of it. *)
Record Run : Type := mkRun {
  status : Z;
  cout : string;
  cerr : string
}.

(** [main], for the arguments after the program name and a given behaviour
    of the commands it starts, in a run whose searches return.  An exception
    that leaves [main] is a [Throw]. *)
Definition main (shell : string -> string) (args : list string) : result Run :=
  match scan_args args no_options with
  | None => Ok (mkRun 0 usage EmptyString)
  | Some o =>
      let smartctl := find_smartctl shell in
      if empty smartctl then
        Ok (mkRun 2 EmptyString ("smartctl not found. Install smartmontools." ++ nl))
      else if list_mode o then
        let devs := list_devices shell smartctl in
        Ok (mkRun 0
              (if json_out o then devices_json devs
               else String.concat EmptyString (List.map (fun d => d ++ nl) devs))
              EmptyString)
      else if empty (device o) then
        Ok (mkRun 2 EmptyString ("Please specify --device or --list" ++ nl))
      else
        let out := run_smartctl shell smartctl (device o) in
        r <- parse_report out ;;
        Ok (mkRun 0
              (if json_out o
               then build_json_from_parsed (identity r) (nvme r) (include_raw o)
               else plain_text (device o) r)
              EmptyString)
  end.

End SmartInfo.

(* ================================================================== *)
(** ** Searches that do not return *)
(* ================================================================== *)

(** [std::regex_search] need not return.  The algorithms of [<regex>]
    report an error by throwing [std::regex_error] (section [re.except] of
    the standard): [error_stack] and [error_complexity] are raised at limits
    the implementation sets, and a matcher that recurses for the characters
    of its input can exhaust the stack of the process before it raises
    anything.  [Cxx.regex_search] says what a search returns; [SmartInfo] is
    the program for searches that return.

    This module is the program from the two searches up to [main] with the
    outcome of a search added.  When a search returns is for the library and
    the machine to say: [completes re s] is that answer for the pattern [re]
    and the subject [s].  A search that does not return is
    [Throw regex_error], whichever way the process ends.  The [try] block of
    the source encloses the call of [stoll] and nothing else, so no handler
    of the program receives it. *)

Module Outcome.
Import Cxx SmartInfo.

Section Matcher.

(** Whether the search for a pattern in a subject returns. *)
Variable completes : regex * nat -> string -> bool.

(** [regex_search(s, m, re)] with its two outcomes. *)
Definition regex_search (s : string) (re : regex * nat)
    : result (bool * smatch) :=
  if completes re s then Ok (Cxx.regex_search s re) else Throw regex_error.

(** The body of the loop of [parse_nvme_section] from [Field f] to the end
    of the [if]; the bracket search comes first, and the number search
    follows it in either branch. *)
Definition field_of_value (val : string) : result Field :=
  let f := mkField val EmptyString false 0 in
  r <- regex_search val bracket_regex ;;
  if fst r then
    r <- regex_search val num_unit_regex ;;
    let '(found_num, m) := r in
    let f :=
      if found_num then try_stoll (remove_char "," (sub_str m 1)) f else f in
    Ok (set_unit (sub_str m 1) f)
  else
    r <- regex_search val num_unit_regex ;;
    let '(found_num, m) := r in
    if found_num then
      let f := try_stoll (remove_char "," (sub_str m 1)) f in
      Ok (if 2 <? msize m then set_unit (sub_str m 2) f else f)
    else Ok f.

(** One iteration of the loop of [parse_nvme_section]. *)
Definition nvme_line (out : map Field) (l : string) : result (map Field) :=
  let p := find l ":" in
  if p =? npos then Ok out
  else
    key <- substr_n l 0 p ;;
    val <- substr l (size_add p 1) ;;
    let key := trim key in
    let val := trim val in
    let k := normalize key in
    f <- field_of_value val ;;
    Ok (map_set k f out).

Fixpoint nvme_loop (lines : list string) (out : map Field)
    : result (map Field) :=
  match lines with
  | [] => Ok out
  | l :: lines' => out' <- nvme_line out l ;; nvme_loop lines' out'
  end.

Definition parse_nvme_section (lines : list string) : result (map Field) :=
  nvme_loop lines [].

Definition parse_report (out : string) : result ParsedReport :=
  st <- scan_lines (getlines out) (mkScan [] [] false) ;;
  nvme <- parse_nvme_section (nvme_lines st) ;;
  Ok (mkParsed (kv st) nvme).

(** [main]: the searches are reached through [parse_nvme_section] only, on
    the path that prints the report of a device, and no handler stands
    between them and the end of [main]. *)
Definition main (shell : string -> string) (args : list string) : result Run :=
  match scan_args args no_options with
  | None => Ok (mkRun 0 usage EmptyString)
  | Some o =>
      let smartctl := find_smartctl shell in
      if empty smartctl then
        Ok (mkRun 2 EmptyString ("smartctl not found. Install smartmontools." ++ nl))
      else if list_mode o then
        let devs := list_devices shell smartctl in
        Ok (mkRun 0
              (if json_out o then devices_json devs
               else String.concat EmptyString (List.map (fun d => d ++ nl) devs))
              EmptyString)
      else if empty (device o) then
        Ok (mkRun 2 EmptyString ("Please specify --device or --list" ++ nl))
      else
        let out := run_smartctl shell smartctl (device o) in
        r <- parse_report out ;;
        Ok (mkRun 0
              (if json_out o
               then build_json_from_parsed (identity r) (nvme r) (include_raw o)
               else plain_text (device o) r)
              EmptyString)
  end.

End Matcher.

End Outcome.

(* ================================================================== *)
(** ** Reference descriptions *)
(* ================================================================== *)

(** The vocabulary of the theorems: descriptions that follow the words of
    the specification rather than the source, with which the program is
    compared, and the shapes of data the statements speak of. *)

Module Reference.
Import Cxx SmartInfo.

Fixpoint take_while (p : ascii -> bool) (s : string) : string :=
  match s with
  | EmptyString => EmptyString
  | String c s' => if p c then String c (take_while p s') else EmptyString
  end.

Fixpoint drop_while (p : ascii -> bool) (s : string) : string :=
  match s with
  | EmptyString => EmptyString
  | String c s' => if p c then drop_while p s' else s
  end.

Fixpoint all_chars (p : ascii -> bool) (s : string) : bool :=
  match s with
  | EmptyString => true
  | String c s' => p c && all_chars p s'
  end.

(** The numeric extraction pattern, as a scanner: anchored at the first
    character that is not white space, an optional sign, then one or more
    digits or commas.  The result is the token and the text that follows. *)
Definition scan_signed (s : string) : option (string * string) :=
  let '(sg, r) :=
    match s with
    | String c r => if sign_char c then (String c EmptyString, r)
                    else (EmptyString, s)
    | EmptyString => (EmptyString, s)
    end in
  if empty (take_while digit_or_comma r) then None
  else Some (sg ++ take_while digit_or_comma r, drop_while digit_or_comma r).

Definition scan_number (val : string) : option (string * string) :=
  scan_signed (drop_while isspace val).

Definition leading_number (val : string) : option string :=
  option_map fst (scan_number val).

(** The unit token: the run of letters, [%] and [.] that follows the number
    after one run of white space. *)
Definition scan_unit (rest : string) : option string :=
  let u := take_while unit_char (drop_while isspace rest) in
  if empty u then None else Some u.

(** The integer a numeric token denotes once its commas are stripped, with
    no bound on its size; [None] when no digit is left. *)
Definition token_value (tok : string) : option Z :=
  let '(neg, ds) := split_sign (remove_char "," tok) in
  if empty ds then None
  else Some (if neg : bool then - digits_value 0 ds else digits_value 0 ds).

(** The number a numeric token denotes, read with the decimal numbers of
    the Standard Library: the commas are left out, a sign in front is read
    off, and what remains is read as a natural number.  [None] when no digit
    is left, or when a character that is no digit stands there. *)
Definition without_commas (tok : string) : string :=
  string_of_list_ascii
    (filter (fun c => negb (Ascii.eqb c ",")) (list_ascii_of_string tok)).

Definition natural (ds : string) : option Z :=
  if empty ds then None
  else option_map Z.of_uint (NilEmpty.uint_of_string ds).

Definition decimal_value (tok : string) : option Z :=
  match without_commas tok with
  | String "-" ds => option_map Z.opp (natural ds)
  | String "+" ds => natural ds
  | ds => natural ds
  end.

Definition fits_int64 (v : Z) : bool := (- 2 ^ 63 <=? v) && (v <? 2 ^ 63).

(** Key normalisation in the three steps of the specification. *)
Definition normalize_spec (k : string) : string :=
  transform (fun c => if Ascii.eqb c " " then "_"%char else c)
            (transform tolower k).

(** The identity entry a trimmed line feeds, by its prefix. *)
Definition identity_key (t : string) : option string :=
  if starts_with t "Device Model:" || starts_with t "Model Number:"
  then Some "model"
  else if starts_with t "Serial Number:" then Some "serial"
  else if starts_with t "Firmware Version:" then Some "firmware"
  else None.

(** The prefixes of the identity lines and the entry each one feeds. *)
Definition identity_prefixes : list (string * string) :=
  [("Device Model:", "model"); ("Model Number:", "model");
   ("Serial Number:", "serial"); ("Firmware Version:", "firmware")].

(** Whether a line of the report feeds the identity entry [k]. *)
Definition feeds (k : string) (line : string) : bool :=
  match identity_key (rtrim (ltrim line)) with
  | Some k' => String.eqb k' k
  | None => false
  end.

Definition is_not (c : ascii) (d : ascii) : bool := negb (Ascii.eqb d c).

(** The text of a report from its lines. *)
Definition unlines (lines : list string) : string :=
  String.concat EmptyString (List.map (fun l => l ++ nl) lines).

(** The members of the JSON object, in the order of the text.  [sep_all]
    writes them the way the emitter does: a comma before each one but the
    first. *)
Fixpoint sep_all (first : bool) (items : list string) : string :=
  match items with
  | [] => EmptyString
  | x :: xs => (if first then x else "," ++ x) ++ sep_all false xs
  end.

Definition is_nil {A : Type} (l : list A) : bool :=
  match l with
  | [] => true
  | _ :: _ => false
  end.

(** The stream after the members [l], from the opening [js0]. *)
Definition after_members (js0 : string) (l : list string) : jstream :=
  (js0 ++ sep_all true l, is_nil l).

Definition opt_entry (k : string) (v : option string) : map string :=
  match v with
  | Some x => [(k, x)]
  | None => []
  end.

(** The identity entries in key order. *)
Definition identity_entries (fo mo so : option string) : map string :=
  (opt_entry "firmware" fo ++ opt_entry "model" mo ++ opt_entry "serial" so)%list.

Definition nvme_health_member (nvme : map Field) : string :=
  nl ++ "  " ++ quote ++ "nvme_health" ++ quote ++ ": {"
     ++ String.concat "," (List.map json_field nvme) ++ nl ++ "  }".

Definition top_level_members (kv : map string) (nvme : map Field)
    (include_raw : bool) : list string :=
  (List.map json_member kv
   ++ (if map_empty nvme then [] else [nvme_health_member nvme])
   ++ (if include_raw then [raw_placeholder] else []))%list.

(** The key an NVMe attribute line assigns, if it holds a colon. *)
Definition line_key (l : string) : option string :=
  if find l ":" =? npos then None
  else
    match substr_n l 0 (find l ":") with
    | Ok key => Some (normalize (trim key))
    | Throw _ => None
    end.

(** Whether a line of the NVMe block assigns the key [k]. *)
Definition assigns (k : string) (l : string) : bool :=
  match line_key l with
  | Some k' => String.eqb k' k
  | None => false
  end.

(** A report none of whose lines is recognised: no identity prefix and no
    start of the NVMe block. *)
Definition unrecognizable (out : string) : bool :=
  forallb
    (fun line =>
       let t := rtrim (ltrim line) in
       match identity_key t with
       | Some _ => false
       | None => negb (starts_with t "SMART/Health Information")
       end)
    (getlines out).

(** The arguments that stand in option position: all but the value taken
    by [--device]. *)
Fixpoint option_tokens (args : list string) : list string :=
  match args with
  | [] => []
  | a :: rest =>
      a :: match rest with
           | _ :: rest' =>
               if String.eqb a "--device" then option_tokens rest'
               else option_tokens rest
           | [] => []
           end
  end.

(** The three forms of the sign in front of a numeric token. *)
Definition is_sign_prefix (sg : string) : Prop :=
  sg = EmptyString \/ sg = "+" \/ sg = "-".

(** The first character of a string that is not empty. *)
Definition front (s : string) : ascii :=
  match s with
  | String c _ => c
  | EmptyString => zero
  end.

(** A string that neither starts nor ends with white space. *)
Definition tight (s : string) : Prop :=
  s = EmptyString \/ (isspace (front s) = false /\ isspace (back s) = false).

(** Reading a JSON string body back: the two-character escapes, [\u00XX]
    for a byte, and every other character for itself; a bare double quote,
    a bare control character or an unknown escape is refused. *)
Definition hex_value (c : ascii) : option Z :=
  if isdigit c then Some (code c - 48)
  else if in_range "a" "f" c then Some (code c - 87)
  else if in_range "A" "F" c then Some (code c - 55)
  else None.

Definition hex_byte (a b : ascii) : option ascii :=
  match hex_value a, hex_value b with
  | Some x, Some y => Some (ascii_of_N (Z.to_N (16 * x + y)))
  | _, _ => None
  end.

Definition simple_escape (e : ascii) : option ascii :=
  if Ascii.eqb e dquote then Some dquote
  else if Ascii.eqb e "\" then Some "\"%char
  else if Ascii.eqb e "b" then Some "008"%char
  else if Ascii.eqb e "f" then Some "012"%char
  else if Ascii.eqb e "n" then Some "010"%char
  else if Ascii.eqb e "r" then Some "013"%char
  else if Ascii.eqb e "t" then Some "009"%char
  else None.

Fixpoint json_unescape (s : string) : option string :=
  match s with
  | EmptyString => Some EmptyString
  | String c rest =>
      if Ascii.eqb c "\" then
        match rest with
        | EmptyString => None
        | String e rest1 =>
            if Ascii.eqb e "u" then
              match rest1 with
              | String z1 (String z2 (String a (String b rest2))) =>
                  if Ascii.eqb z1 "0" && Ascii.eqb z2 "0" then
                    match hex_byte a b with
                    | Some x => option_map (String x) (json_unescape rest2)
                    | None => None
                    end
                  else None
              | _ => None
              end
            else
              match simple_escape e with
              | Some x => option_map (String x) (json_unescape rest1)
              | None => None
              end
        end
      else if Ascii.eqb c dquote || (code c <? 32) then None
      else option_map (String c) (json_unescape rest)
  end.

(** Characters [json_escape] copies as they are. *)
Definition plain_char (c : ascii) : bool :=
  (32 <=? code c) && negb (Ascii.eqb c dquote) && negb (Ascii.eqb c "\").

Definition not_space (c : ascii) : bool := negb (isspace c).

(** A line of [smartctl --scan]: the device, a space, the rest of the line. *)
Definition scan_entry (e : string * string) : string := fst e ++ " " ++ snd e.

(** A device name and the rest of its line, as [smartctl --scan] prints
    them: the name is not empty and holds no white space, the rest holds no
    line feed. *)
Definition well_formed_entry (e : string * string) : bool :=
  negb (empty (fst e)) && all_chars not_space (fst e)
  && all_chars (is_not "010") (snd e).

(** Whether a flag stands among the options of a command line. *)
Definition has_option (flag : string) (args : list string) : bool :=
  existsb (fun a => String.eqb a flag) (option_tokens args).

Definition help_requested (args : list string) : bool :=
  has_option "-h" args || has_option "--help" args.

(** The values that [--device] takes, in the order of the command line. *)
Fixpoint device_values (args : list string) : list string :=
  match args with
  | [] => []
  | a :: rest =>
      match rest with
      | v :: rest' =>
          if String.eqb a "--device" then v :: device_values rest'
          else device_values rest
      | [] => []
      end
  end.

(** The options a command line without help request selects. *)
Definition options_of (args : list string) : Options :=
  mkOptions (has_option "--list" args)
            (last (device_values args) EmptyString)
            (has_option "--json" args)
            (has_option "--include-raw" args).

(** The lines the section machine tells apart, by their trimmed text. *)
Definition is_marker (t : string) : bool :=
  starts_with t "SMART/Health Information".

Definition is_terminator (t : string) : bool :=
  starts_with t "Error Information" || starts_with t "Self-test Log"
  || starts_with t "===".

Definition is_identity (t : string) : bool :=
  match identity_key t with
  | Some _ => true
  | None => false
  end.

(** A line that is kept as an NVMe attribute line inside the block: not
    empty, and none of the above. *)
Definition collectable (t : string) : bool :=
  negb (empty t) && negb (is_identity t) && negb (is_marker t)
  && negb (is_terminator t).

Definition initial_scan : Scan := mkScan [] [] false.

(** Whether a line holds a colon. *)
Definition has_colon (l : string) : bool := negb (all_chars (is_not ":") l).

(** A normalised key: no uppercase ASCII letter and no space. *)
Definition normalized (k : string) : bool :=
  all_chars (fun c => negb (isupper c) && negb (Ascii.eqb c " ")) k.

(** What holds of every entry of the NVMe map. *)
Definition sound_entry (e : string * Field) : Prop :=
  normalized (fst e) = true
  /\ snd e = field_of_value (raw (snd e))
  /\ tight (raw (snd e)).

(** The carriage return that ends a line of a text with CR LF line ends. *)
Definition cr : string := String "013" EmptyString.

(** The value an NVMe attribute line hands to the two searches: the
    trimmed text after its first colon.  A line without colon is skipped
    before any search. *)
Definition searched_value (l : string) : option string :=
  if find l ":" =? npos then None
  else
    match substr l (size_add (find l ":") 1) with
    | Ok val => Some (trim val)
    | Throw _ => None
    end.

Fixpoint searched_values (lines : list string) : list string :=
  match lines with
  | [] => []
  | l :: lines' =>
      match searched_value l with
      | Some v => v :: searched_values lines'
      | None => searched_values lines'
      end
  end.

(** The lines of a report that the section machine keeps as NVMe attribute
    lines. *)
Definition attribute_lines (out : string) : list string :=
  match scan_lines (getlines out) initial_scan with
  | Ok st => nvme_lines st
  | Throw _ => []
  end.

(** Whether both searches return on a value. *)
Definition searches_return (completes : regex * nat -> string -> bool)
    (val : string) : bool :=
  completes bracket_regex val && completes num_unit_regex val.

(** A run of [n] letters, and a report whose NVMe block holds one attribute
    with an annotation of that length. *)
Definition fill (n : nat) : string :=
  string_of_list_ascii (repeat "a"%char n).

Definition long_report (n : nat) : string :=
  unlines ["SMART/Health Information (NVMe Log 0x02)";
           "Data Units Read: [" ++ fill n ++ "]"].

End Reference.

Import Cxx SmartInfo Reference.

(* ================================================================== *)
(** ** Strings and characters *)
(* ================================================================== *)

Section StringFacts.

Lemma append_assoc (a b c : string) : (a ++ b) ++ c = a ++ (b ++ c).
Proof.
  induction a as [|x a IH]; simpl; [reflexivity | now rewrite IH].
Qed.

Lemma append_empty_r (a : string) : a ++ EmptyString = a.
Proof.
  induction a as [|x a IH]; simpl; [reflexivity | now rewrite IH].
Qed.

Lemma length_append (a b : string) :
  String.length (a ++ b) = (String.length a + String.length b)%nat.
Proof.
  induction a as [|x a IH]; simpl; [reflexivity | now rewrite IH].
Qed.

Lemma take_append (a b : string) : take (String.length a) (a ++ b) = a.
Proof.
  induction a as [|x a IH]; simpl.
  - now destruct b.
  - now rewrite IH.
Qed.

Lemma drop_append (a b : string) : drop (String.length a) (a ++ b) = b.
Proof.
  induction a as [|x a IH]; simpl; [reflexivity | exact IH].
Qed.

Lemma consumed_append (a b : string) : consumed (a ++ b) b = a.
Proof.
  unfold consumed. rewrite length_append.
  replace (String.length a + String.length b - String.length b)%nat
    with (String.length a) by lia.
  apply take_append.
Qed.

Lemma take_drop_while (p : ascii -> bool) (s : string) :
  take_while p s ++ drop_while p s = s.
Proof.
  induction s as [|c s IH]; simpl; [reflexivity|].
  destruct (p c); simpl; [now rewrite IH | reflexivity].
Qed.

Lemma all_chars_take_while (p : ascii -> bool) (s : string) :
  all_chars p (take_while p s) = true.
Proof.
  induction s as [|c s IH]; simpl; [reflexivity|].
  destruct (p c) eqn:E; simpl; [now rewrite E | reflexivity].
Qed.

End StringFacts.

(** Every fact about a single character is settled by running through the
    256 of them. *)
Ltac by_cases_on_char c :=
  destruct c as [[] [] [] [] [] [] [] []]; vm_compute; try reflexivity;
  try congruence; try (intros; congruence); auto.

Lemma space_not_sign (c : ascii) : isspace c = true -> sign_char c = false.
Proof. by_cases_on_char c. Qed.

Lemma space_not_digit_or_comma (c : ascii) :
  isspace c = true -> digit_or_comma c = false.
Proof. by_cases_on_char c. Qed.

Lemma space_not_unit (c : ascii) : isspace c = true -> unit_char c = false.
Proof. by_cases_on_char c. Qed.

Lemma sign_not_digit_or_comma (c : ascii) :
  sign_char c = true -> digit_or_comma c = false.
Proof. by_cases_on_char c. Qed.

(* ================================================================== *)
(** ** The two patterns, as scanners *)
(* ================================================================== *)

Section Iteration.

Variable p : ascii -> bool.
Variable k : cont.
Variable caps : smatch.

Lemma star_class_step (fuel : nat) (c : ascii) (s : string) (bol : bool) :
  (String.length s <= fuel)%nat ->
  star (rmatch (Cls p)) (S fuel) (String c s) bol caps k =
  if p c then
    match star (rmatch (Cls p)) fuel s false caps k with
    | Some m => Some m
    | None => k (String c s) bol caps
    end
  else k (String c s) bol caps.
Proof.
  intros Hlen. cbn [star rmatch].
  destruct (p c); [|reflexivity].
  destruct (Nat.ltb_spec (String.length s) (String.length (String c s)))
    as [_|Hge]; [reflexivity | simpl in Hge; lia].
Qed.

(** Greedy iteration of a class in front of a continuation that refuses
    to start on a character of the class: only the longest run counts. *)
Lemma star_class_reject :
  (forall c s b, p c = true -> k (String c s) b caps = None) ->
  forall fuel s bol, (String.length s <= fuel)%nat ->
  exists b', star (rmatch (Cls p)) fuel s bol caps k = k (drop_while p s) b' caps.
Proof.
  intros Hrej fuel. induction fuel as [|fuel IH]; intros s bol Hlen.
  - destruct s; simpl in *; [now exists bol | lia].
  - destruct s as [|c s]; [now exists bol|].
    simpl in Hlen. rewrite star_class_step by lia. simpl drop_while.
    destruct (p c) eqn:Hc; [|now exists bol].
    destruct (IH s false) as [b' Hb']; [lia|].
    rewrite Hb'. exists b'.
    destruct (k (drop_while p s) b' caps) eqn:Hk; [reflexivity|].
    now apply Hrej.
Qed.

(** The same in front of a continuation that always succeeds. *)
Lemma star_class_total :
  (forall s b, k s b caps <> None) ->
  forall fuel s bol, (String.length s <= fuel)%nat ->
  exists b', star (rmatch (Cls p)) fuel s bol caps k = k (drop_while p s) b' caps.
Proof.
  intros Htot fuel. induction fuel as [|fuel IH]; intros s bol Hlen.
  - destruct s; simpl in *; [now exists bol | lia].
  - destruct s as [|c s]; [now exists bol|].
    simpl in Hlen. rewrite star_class_step by lia. simpl drop_while.
    destruct (p c) eqn:Hc; [|now exists bol].
    destruct (IH s false) as [b' Hb']; [lia|].
    rewrite Hb'. exists b'.
    destruct (k (drop_while p s) b' caps) eqn:Hk; [reflexivity|].
    now apply Htot in Hk.
Qed.

End Iteration.

Section Equations.

Variables (s : string) (b : bool) (c : smatch) (k : cont).

Lemma rmatch_bol : rmatch Bol s b c k = if b then k s b c else None.
Proof. reflexivity. Qed.

Lemma rmatch_cls (p : ascii -> bool) :
  rmatch (Cls p) s b c k =
  match s with
  | String x s' => if p x then k s' false c else None
  | EmptyString => None
  end.
Proof. reflexivity. Qed.

Lemma rmatch_cat (r1 r2 : regex) :
  rmatch (Cat r1 r2) s b c k =
  rmatch r1 s b c (fun s1 b1 c1 => rmatch r2 s1 b1 c1 k).
Proof. reflexivity. Qed.

Lemma rmatch_star (r : regex) :
  rmatch (Star r) s b c k = star (rmatch r) (String.length s) s b c k.
Proof. reflexivity. Qed.

Lemma rmatch_plus (r : regex) :
  rmatch (Plus r) s b c k =
  rmatch r s b c
    (fun s1 b1 c1 => star (rmatch r) (String.length s1) s1 b1 c1 k).
Proof. reflexivity. Qed.

Lemma rmatch_opt (r : regex) :
  rmatch (Opt r) s b c k =
  match rmatch r s b c k with
  | Some m => Some m
  | None => k s b c
  end.
Proof. reflexivity. Qed.

Lemma rmatch_grp (i : nat) (r : regex) :
  rmatch (Grp i r) s b c k =
  rmatch r s b c (fun s1 b1 c1 => k s1 b1 (set_sub i (consumed s s1) c1)).
Proof. reflexivity. Qed.

End Equations.


Section NumUnit.

(** The whole value, for the sub-match of the complete pattern. *)
Variable val : string.

Let accept : cont := fun s1 _ c1 => Some (set_sub 0 (consumed val s1) c1).

Let unit_part : regex :=
  Opt (Cat (Star (Cls isspace)) (Grp 2 (Plus (Cls unit_char)))).

Let number_part : regex :=
  Grp 1 (Cat (Opt (Cls sign_char)) (Plus (Cls digit_or_comma))).

Lemma consumed_run (p : ascii -> bool) (x : ascii) (r : string) :
  consumed (String x r) (drop_while p r) = String x (take_while p r).
Proof.
  rewrite <- (take_drop_while p r) at 1.
  change (String x (take_while p r ++ drop_while p r))
    with (String x (take_while p r) ++ drop_while p r).
  apply consumed_append.
Qed.

(** After the number: the optional unit token fills the second group. *)
Lemma unit_part_scan (s : string) (b : bool) (tok : string) :
  exists whole,
    rmatch unit_part s b [None; Some tok; None] accept =
    Some [Some whole; Some tok; scan_unit s].
Proof.
  unfold unit_part, scan_unit. rewrite rmatch_opt, rmatch_cat, rmatch_star.
  match goal with
  | |- context [star _ _ _ _ ?C ?K] =>
      destruct (@star_class_reject isspace K C) with
        (fuel := String.length s) (s := s) (bol := b) as [b' Hb']
  end.
  - intros x r b0 Hx. rewrite rmatch_grp, rmatch_plus, rmatch_cls.
    now rewrite (space_not_unit x Hx).
  - lia.
  - rewrite Hb'. clear Hb'.
    rewrite rmatch_grp, rmatch_plus, rmatch_cls.
    destruct (drop_while isspace s) as [|u r] eqn:Hs2.
    + eexists. reflexivity.
    + simpl take_while. destruct (unit_char u) eqn:Hu.
      * match goal with
        | |- context [star _ _ _ _ ?C ?K] =>
            destruct (@star_class_total unit_char K C) with
              (fuel := String.length r) (s := r) (bol := false) as [b2 Hb2]
        end.
        -- intros; discriminate.
        -- lia.
        -- rewrite Hb2. unfold accept. simpl set_sub.
           rewrite consumed_run. eexists. reflexivity.
      * eexists. reflexivity.
Qed.

(** The digits of the number, [sg] being the sign already read. *)
Lemma digits_scan (s0 sg r : string) (b : bool) (K : cont) :
  s0 = sg ++ r ->
  (forall s1 b1 c1,
     K s1 b1 c1 = rmatch unit_part s1 b1 (set_sub 1 (consumed s0 s1) c1) accept) ->
  if empty (take_while digit_or_comma r)
  then rmatch (Plus (Cls digit_or_comma)) r b [None; None; None] K = None
  else exists whole,
      rmatch (Plus (Cls digit_or_comma)) r b [None; None; None] K =
      Some [Some whole; Some (sg ++ take_while digit_or_comma r);
            scan_unit (drop_while digit_or_comma r)].
Proof.
  intros Hs0 HK. rewrite rmatch_plus, rmatch_cls.
  destruct r as [|d r]; [reflexivity|].
  simpl take_while. simpl drop_while.
  destruct (digit_or_comma d) eqn:Hd; [|reflexivity].
  simpl empty.
  destruct (@star_class_total digit_or_comma K [None; None; None]) with
    (fuel := String.length r) (s := r) (bol := false) as [b' Hb'].
  - intros s1 b1. rewrite HK. simpl set_sub.
    destruct (unit_part_scan s1 b1 (consumed s0 s1)) as [w Hw].
    intros Hn. pose proof (eq_trans (eq_sym Hw) Hn) as X. discriminate X.
  - lia.
  - rewrite Hb', HK. simpl set_sub.
    assert (Htok : consumed s0 (drop_while digit_or_comma r) =
                   sg ++ String d (take_while digit_or_comma r)).
    { rewrite Hs0. rewrite <- (take_drop_while digit_or_comma r) at 1.
      change (String d (take_while digit_or_comma r ++ drop_while digit_or_comma r))
        with (String d (take_while digit_or_comma r) ++ drop_while digit_or_comma r).
      rewrite <- append_assoc. apply consumed_append. }
    rewrite Htok. apply unit_part_scan.
Qed.

(** The number and what follows it, from the first character that is not
    white space. *)
Lemma number_scan (s0 : string) (b : bool) :
  match scan_signed s0 with
  | None =>
      rmatch (Cat number_part unit_part) s0 b [None; None; None] accept = None
  | Some (tok, rest) =>
      exists whole,
        rmatch (Cat number_part unit_part) s0 b [None; None; None] accept =
        Some [Some whole; Some tok; scan_unit rest]
  end.
Proof.
  unfold number_part, scan_signed.
  rewrite rmatch_cat, rmatch_grp, rmatch_cat, rmatch_opt, rmatch_cls.
  match goal with
  | |- context [rmatch (Plus _) _ _ _ ?K] => set (K0 := K)
  end.
  assert (HK : forall s1 b1 c1,
             K0 s1 b1 c1 =
             rmatch unit_part s1 b1 (set_sub 1 (consumed s0 s1) c1) accept)
    by reflexivity.
  clearbody K0.
  destruct s0 as [|c r].
  - reflexivity.
  - destruct (sign_char c) eqn:Hc.
    + pose proof (@digits_scan (String c r) (String c EmptyString) r false K0
                    eq_refl HK) as H.
      destruct (empty (take_while digit_or_comma r)).
      * rewrite H. rewrite rmatch_plus, rmatch_cls.
        now rewrite (sign_not_digit_or_comma c Hc).
      * destruct H as [w Hw]. rewrite Hw. now exists w.
    + pose proof (@digits_scan (String c r) EmptyString (String c r) b K0
                    eq_refl HK) as H.
      destruct (empty (take_while digit_or_comma (String c r))).
      * exact H.
      * exact H.
Qed.

Lemma search_after_start (s : string) :
  search_at (fst num_unit_regex) 2 s false = None.
Proof.
  induction s as [|x s IH]; cbn [search_at]; unfold num_unit_regex at 1;
    cbn [fst]; rewrite rmatch_cat, rmatch_bol; [reflexivity | exact IH].
Qed.

End NumUnit.

Lemma search_at_unfold (r : regex) (n : nat) (s : string) (b : bool) :
  search_at r n s b =
  match rmatch r s b (repeat None (S n))
          (fun s1 _ c1 => Some (set_sub 0 (consumed s s1) c1)) with
  | Some m => Some m
  | None =>
      match s with
      | EmptyString => None
      | String _ s' => search_at r n s' false
      end
  end.
Proof. destruct s; reflexivity. Qed.

(** [num_unit_regex] finds what the scanner of the specification finds: the
    numeric token in group 1 and the unit token, if any, in group 2. *)
Lemma num_unit_search (val : string) :
  match scan_number val with
  | None => regex_search val num_unit_regex = (false, [])
  | Some (tok, rest) =>
      exists whole,
        regex_search val num_unit_regex =
        (true, [Some whole; Some tok; scan_unit rest])
  end.
Proof.
  unfold regex_search, scan_number. rewrite search_at_unfold.
  replace (match val with
           | EmptyString => None
           | String _ s' => search_at (fst num_unit_regex) (snd num_unit_regex) s' false
           end) with (@None smatch)
    by (destruct val; [reflexivity | symmetry; apply search_after_start]).
  unfold num_unit_regex. cbn [fst snd repeat].
  rewrite rmatch_cat, rmatch_bol, rmatch_cat, rmatch_star.
  match goal with
  | |- context [star _ _ _ _ ?C ?K] =>
      destruct (@star_class_reject isspace K C) with
        (fuel := String.length val) (s := val) (bol := true) as [b' Hb']
  end.
  - intros x r b0 Hx.
    pose proof (number_scan val (String x r) b0) as H.
    unfold scan_signed in H.
    rewrite (space_not_sign x Hx) in H. simpl take_while in H.
    rewrite (space_not_digit_or_comma x Hx) in H. exact H.
  - lia.
  - rewrite Hb'. clear Hb'.
    pose proof (number_scan val (drop_while isspace val) b') as H.
    destruct (scan_signed (drop_while isspace val)) as [[tok rest]|].
    + destruct H as [w Hw]. exists w.
      match goal with
      | |- context [rmatch ?r ?s ?b ?c ?k] =>
          replace (rmatch r s b c k)
            with (Some [Some w; Some tok; scan_unit rest])
            by (symmetry; exact Hw)
      end.
      reflexivity.
    + match goal with
      | |- context [rmatch ?r ?s ?b ?c ?k] =>
          replace (rmatch r s b c k) with (@None smatch)
            by (symmetry; exact H)
      end.
      reflexivity.
Qed.

(* ================================================================== *)
(** ** The numeric token and std::stoll *)
(* ================================================================== *)

Lemma digit_or_comma_cases (c : ascii) :
  digit_or_comma c = true ->
  (Ascii.eqb c "," = true /\ isdigit c = false)
  \/ (Ascii.eqb c "," = false /\ isdigit c = true).
Proof. by_cases_on_char c. Qed.

Lemma digit_not_space (c : ascii) : isdigit c = true -> isspace c = false.
Proof. by_cases_on_char c. Qed.

Lemma digit_no_sign (c : ascii) (s : string) :
  isdigit c = true -> split_sign (String c s) = (false, String c s).
Proof. by_cases_on_char c. Qed.

Lemma digits_all (t : string) : all_chars isdigit t = true -> digits t = t.
Proof.
  induction t as [|d t IH]; simpl; [reflexivity|].
  intros H. apply andb_prop in H as [Hd Ht]. rewrite Hd. now rewrite IH.
Qed.

Lemma remove_commas_digits (body : string) :
  all_chars digit_or_comma body = true ->
  all_chars isdigit (remove_char "," body) = true.
Proof.
  induction body as [|c body IH]; simpl; [reflexivity|].
  intros H. apply andb_prop in H as [Hc Hb].
  destruct (digit_or_comma_cases c Hc) as [[Hcomma _]|[Hcomma Hd]];
    rewrite Hcomma; simpl; [now apply IH | rewrite Hd; now apply IH].
Qed.

(** On a token of the pattern, [stoll] fails exactly when no digit is left
    after the commas are removed, or when the value does not fit 64 bits. *)
Lemma stoll_token (sg body : string) :
  is_sign_prefix sg ->
  all_chars digit_or_comma body = true ->
  stoll (remove_char "," (sg ++ body)) =
  match token_value (sg ++ body) with
  | None => Throw invalid_argument
  | Some v => if fits_int64 v then Ok v else Throw out_of_range
  end.
Proof.
  intros Hsg Hbody.
  assert (Ht := remove_commas_digits body Hbody).
  assert (Hrm : remove_char "," (sg ++ body) = sg ++ remove_char "," body)
    by (destruct Hsg as [->|[->| ->]]; reflexivity).
  unfold stoll, token_value. rewrite Hrm. clear Hrm.
  set (t := remove_char "," body) in *. clearbody t. clear Hbody body.
  assert (Hskip : skip_space (sg ++ t) = sg ++ t).
  { destruct Hsg as [->|[->| ->]]; try reflexivity.
    destruct t as [|d t]; [reflexivity|]. simpl in *.
    apply andb_prop in Ht as [Hd _]. now rewrite (digit_not_space d Hd). }
  rewrite Hskip. clear Hskip.
  assert (Hsplit : exists neg, split_sign (sg ++ t) = (neg, t)).
  { destruct Hsg as [->|[->| ->]]; [|now exists false|now exists true].
    destruct t as [|d t]; [now exists false|]. simpl in Ht.
    apply andb_prop in Ht as [Hd _]. exists false. now apply digit_no_sign. }
  destruct Hsplit as [neg ->].
  rewrite (digits_all t Ht).
  destruct (empty t); [reflexivity|].
  unfold fits_int64, LLONG_MIN, LLONG_MAX.
  set (v := if neg then _ else _).
  replace (v <=? 2 ^ 63 - 1) with (v <? 2 ^ 63) by lia.
  reflexivity.
Qed.

Lemma scan_signed_token (s tok rest : string) :
  scan_signed s = Some (tok, rest) ->
  exists sg body,
    tok = sg ++ body /\ is_sign_prefix sg
    /\ all_chars digit_or_comma body = true.
Proof.
  unfold scan_signed, is_sign_prefix.
  destruct s as [|c r].
  - simpl. discriminate.
  - destruct (sign_char c) eqn:Hc.
    + destruct (empty (take_while digit_or_comma r)); [discriminate|].
      intros H. injection H as <- _.
      exists (String c EmptyString), (take_while digit_or_comma r).
      split; [reflexivity|]. split; [|apply all_chars_take_while].
      revert Hc. clear. by_cases_on_char c.
    + destruct (empty (take_while digit_or_comma (String c r))); [discriminate|].
      intros H. injection H as <- _.
      exists EmptyString, (take_while digit_or_comma (String c r)).
      split; [reflexivity|]. split; [now left | apply all_chars_take_while].
Qed.

Lemma digits_value_acc (d : Decimal.uint) :
  forall acc : positive,
    digits_value (Z.pos acc) (NilEmpty.string_of_uint d) =
    Z.pos (Pos.of_uint_acc d acc).
Proof.
  induction d; intros acc; cbn [NilEmpty.string_of_uint digits_value Pos.of_uint_acc];
    [reflexivity|..];
    rewrite <- IHd; f_equal; vm_compute code; lia.
Qed.

Lemma digits_value_uint (d : Decimal.uint) :
  digits_value 0 (NilEmpty.string_of_uint d) = Z.of_N (Pos.of_uint d).
Proof.
  induction d; cbn [NilEmpty.string_of_uint digits_value Pos.of_uint];
    [reflexivity | exact IHd|..];
    match goal with
    | |- digits_value ?a _ = _ =>
        let a' := eval vm_compute in a in change a with a'
    end; rewrite digits_value_acc; reflexivity.
Qed.

(** A run of digits is a decimal number of the Standard Library, and
    [digits_value] computes the number it denotes. *)
Lemma uint_of_digits (t : string) :
  all_chars isdigit t = true ->
  exists d, NilEmpty.uint_of_string t = Some d.
Proof.
  induction t as [|c t IH]; [now exists Decimal.Nil|].
  simpl. intros H. apply andb_prop in H as [Hc Ht].
  destruct (IH Ht) as [d ->]. clear IH Ht. revert Hc.
  destruct c as [[] [] [] [] [] [] [] []]; vm_compute; intros H;
    try discriminate H; eexists; reflexivity.
Qed.

Lemma natural_digits (t : string) :
  all_chars isdigit t = true ->
  natural t = if empty t then None else Some (digits_value 0 t).
Proof.
  intros Ht. unfold natural. destruct (empty t); [reflexivity|].
  destruct (uint_of_digits t Ht) as [d Hd]. rewrite Hd. cbn [option_map].
  rewrite <- (NilEmpty.sus t d Hd), digits_value_uint. reflexivity.
Qed.

Lemma without_commas_remove (s : string) :
  without_commas s = remove_char "," s.
Proof.
  unfold without_commas. induction s as [|c s IH]; [reflexivity|].
  cbn [list_ascii_of_string filter remove_char].
  destruct (Ascii.eqb c ","); cbn [negb]; [exact IH|].
  cbn [string_of_list_ascii]. now rewrite IH.
Qed.

Lemma digit_not_sign (c : ascii) (t : string) :
  isdigit c = true ->
  match String c t with
  | String "-" ds => option_map Z.opp (natural ds)
  | String "+" ds => natural ds
  | ds => natural ds
  end = natural (String c t).
Proof.
  intros H.
  destruct c as [[] [] [] [] [] [] [] []];
    first [discriminate H | exact eq_refl].
Qed.

(** On a token of the pattern the two readings agree: the one [stoll] is
    compared with and the one by the decimal numbers of the library. *)
Lemma token_value_decimal (sg body : string) :
  is_sign_prefix sg ->
  all_chars digit_or_comma body = true ->
  token_value (sg ++ body) = decimal_value (sg ++ body).
Proof.
  intros Hsg Hbody.
  assert (Ht := remove_commas_digits body Hbody).
  assert (Hrm : remove_char "," (sg ++ body) = sg ++ remove_char "," body)
    by (destruct Hsg as [->|[->| ->]]; reflexivity).
  unfold token_value, decimal_value. rewrite without_commas_remove, Hrm.
  clear Hrm. set (t := remove_char "," body) in *. clearbody t.
  clear Hbody body.
  destruct Hsg as [->|[->| ->]].
  - cbn [append]. destruct t as [|c t]; [reflexivity|].
    assert (Hc : isdigit c = true) by (simpl in Ht; now apply andb_prop in Ht).
    rewrite (digit_no_sign c t Hc), (digit_not_sign c t Hc).
    now rewrite (natural_digits _ Ht).
  - change (split_sign ("+" ++ t)) with (false, t).
    change ("+" ++ t) with (String "+" t). cbv iota beta.
    rewrite (natural_digits _ Ht). now destruct (empty t).
  - change (split_sign ("-" ++ t)) with (true, t).
    change ("-" ++ t) with (String "-" t). cbv iota beta.
    rewrite (natural_digits _ Ht). now destruct (empty t).
Qed.

(** The field built for a value, in terms of the scanner: the bracket test
    only selects where the unit comes from. *)
Lemma field_of_value_scan (val : string) :
  field_of_value val =
  match scan_number val with
  | None => mkField val EmptyString false 0
  | Some (tok, rest) =>
      let u :=
        if fst (regex_search val bracket_regex) then tok
        else match scan_unit rest with Some u => u | None => EmptyString end in
      match token_value tok with
      | Some v => if fits_int64 v then mkField val u true v
                  else mkField val u false 0
      | None => mkField val u false 0
      end
  end.
Proof.
  unfold field_of_value.
  pose proof (num_unit_search val) as Hs.
  destruct (scan_number val) as [[tok rest]|] eqn:Hscan.
  - destruct Hs as [w ->].
    destruct (scan_signed_token _ _ _ Hscan) as (sg & body & -> & Hsg & Hbody).
    destruct (regex_search val bracket_regex) as [found m].
    cbn [fst]. unfold try_stoll, set_unit, sub_str, msize. cbn [nth_error List.length].
    rewrite (stoll_token sg body Hsg Hbody).
    destruct found; destruct (token_value (sg ++ body)) as [v|];
      try destruct (fits_int64 v); try reflexivity;
      destruct (scan_unit rest); reflexivity.
  - rewrite Hs. destruct (regex_search val bracket_regex) as [[] m]; reflexivity.
Qed.

(* ================================================================== *)
(** ** The bracketed annotation *)
(* ================================================================== *)

Section Backtracking.

Variable p : ascii -> bool.
Variable k : cont.
Variable caps : smatch.

(** The iteration of a class gives back characters until the continuation
    accepts: it succeeds as soon as some split of the run does. *)
Lemma star_class_some (u w : string) :
  all_chars p u = true ->
  (forall b, k w b caps <> None) ->
  forall fuel bol, (String.length (u ++ w) <= fuel)%nat ->
  star (rmatch (Cls p)) fuel (u ++ w) bol caps k <> None.
Proof.
  intros Hu Hk. induction u as [|c u IH]; intros fuel bol Hlen.
  - simpl append. destruct fuel as [|fuel]; cbn [star]; [apply Hk|].
    destruct (rmatch (Cls p) w bol caps _); [discriminate | apply Hk].
  - simpl in Hu. apply andb_prop in Hu as [Hc Hu].
    destruct fuel as [|fuel]; simpl in Hlen; [lia|].
    change (String c u ++ w) with (String c (u ++ w)).
    rewrite star_class_step by lia. rewrite Hc.
    specialize (IH Hu fuel false ltac:(lia)).
    destruct (star (rmatch (Cls p)) fuel (u ++ w) false caps k);
      [discriminate | contradiction].
Qed.

End Backtracking.

Lemma search_at_later (r : regex) (n : nat) (a s : string) :
  (forall b, rmatch r s b (repeat None (S n))
               (fun s1 _ c1 => Some (set_sub 0 (consumed s s1) c1)) <> None) ->
  forall b, search_at r n (a ++ s) b <> None.
Proof.
  intros Hs. induction a as [|x a IH]; intros b; rewrite search_at_unfold.
  - simpl append. specialize (Hs b).
    destruct (rmatch r s b _ _); [discriminate | contradiction].
  - change (String x a ++ s) with (String x (a ++ s)).
    destruct (rmatch r (String x (a ++ s)) b _ _); [discriminate | apply IH].
Qed.

(** A value that holds an opening bracket, then characters of one line,
    then a closing bracket matches [bracket_regex]. *)
Lemma bracket_search_found (a u z : string) :
  all_chars dot u = true ->
  fst (regex_search (a ++ "[" ++ u ++ "]" ++ z) bracket_regex) = true.
Proof.
  intros Hu. unfold regex_search.
  assert (H : search_at (fst bracket_regex) (snd bracket_regex)
                (a ++ "[" ++ u ++ "]" ++ z) true <> None).
  { apply search_at_later. intros b. unfold bracket_regex. cbn [fst snd].
    change ("[" ++ u ++ "]" ++ z) with (String "[" (u ++ "]" ++ z)).
    rewrite rmatch_cat, rmatch_cls.
    change (is_char "[" "[") with true. cbv iota.
    rewrite rmatch_cat, rmatch_grp, rmatch_star.
    apply star_class_some; [exact Hu | | lia].
    intros b0. change ("]" ++ z) with (String "]" z).
    rewrite rmatch_cls. change (is_char "]" "]") with true. discriminate. }
  destruct (search_at _ _ _ _); [reflexivity | contradiction].
Qed.

(** A value without opening bracket does not match [bracket_regex]. *)
Lemma bracket_search_none (val : string) :
  all_chars (is_not "[") val = true ->
  regex_search val bracket_regex = (false, []).
Proof.
  intros H. unfold regex_search.
  assert (Hs : forall s b, all_chars (is_not "[") s = true ->
               search_at (fst bracket_regex) (snd bracket_regex) s b = None).
  { induction s as [|c s IH]; intros b Hc; rewrite search_at_unfold;
      unfold bracket_regex at 1; cbn [fst]; rewrite rmatch_cat, rmatch_cls.
    - reflexivity.
    - simpl in Hc. apply andb_prop in Hc as [Hc Hs].
      unfold is_not in Hc. apply negb_true_iff in Hc.
      unfold is_char. rewrite Hc. now apply IH. }
  now rewrite (Hs val true H).
Qed.

(* ================================================================== *)
(** ** Value decomposition *)
(* ================================================================== *)

(** C2, where the program departs from the specification:
    for a value with a bracketed annotation
    the unit the program stores is not the text between the brackets.  The
    second search overwrites the match of the first one, so the unit is the
    leading numeric token, commas included, and empty when the value does
    not start with a number. *)
Theorem C2_bracket_unit_is_leading_number (a u z : string) :
  all_chars dot u = true ->
  let val := a ++ "[" ++ u ++ "]" ++ z in
  unit (field_of_value val) =
  match leading_number val with
  | Some tok => tok
  | None => EmptyString
  end.
Proof.
  intros Hu val. subst val. rewrite field_of_value_scan. unfold leading_number.
  rewrite (bracket_search_found a u z Hu).
  destruct (scan_number _) as [[tok rest]|]; [|reflexivity].
  cbn [option_map fst].
  destruct (token_value tok) as [v|]; [destruct (fits_int64 v)|]; reflexivity.
Qed.

Lemma C2_data_units_read :
  all_chars dot "632 GB" = true
  /\ parse_nvme_section ["Data Units Read:                    1,234,567 [632 GB]"] =
     Ok [("data_units_read",
          mkField "1,234,567 [632 GB]" "1,234,567" true 1234567)]
  /\ unit (field_of_value "1,234,567 [632 GB]") = "1,234,567".
Proof.
  split; [reflexivity|]. split; [vm_compute; reflexivity|].
  exact (C2_bracket_unit_is_leading_number "1,234,567 " "632 GB" "" eq_refl).
Defined.

(** C3, as the program has it:
    a value that starts with [0x] and holds no opening bracket does have a
    numeric value.  The pattern takes the leading digit as the number, so
    the value is 0; the unit is the run of letters, [%] and [.] that
    follows, beginning with the [x].  Value and unit are both absent when a
    value without bracket has no leading number. *)
Theorem C3_hex_prefix_reads_zero (tail : string) :
  all_chars (is_not "[") tail = true ->
  field_of_value ("0x" ++ tail) =
  mkField ("0x" ++ tail) ("x" ++ take_while unit_char tail) true 0
  /\ (forall val,
        all_chars (is_not "[") val = true ->
        leading_number val = None ->
        field_of_value val = mkField val EmptyString false 0).
Proof.
  intros Htail. split.
  - assert (Hb : all_chars (is_not "[") ("0x" ++ tail) = true) by exact Htail.
    rewrite field_of_value_scan, (bracket_search_none _ Hb).
    change (scan_number ("0x" ++ tail)) with (Some ("0", "x" ++ tail)).
    cbv zeta. cbn [fst]. change (token_value "0") with (Some 0).
    change (fits_int64 0) with true. cbv iota.
    change (scan_unit ("x" ++ tail))
      with (Some ("x" ++ take_while unit_char tail)).
    reflexivity.
  - intros val _ Hnone. rewrite field_of_value_scan.
    unfold leading_number in Hnone.
    destruct (scan_number val) as [[tok rest]|]; [discriminate | reflexivity].
Qed.

Lemma C3_hex_prefix_at_0x00 :
  field_of_value "0x00" = mkField "0x00" "x" true 0
  /\ field_of_value "Unknown" = mkField "Unknown" EmptyString false 0.
Proof.
  destruct (C3_hex_prefix_reads_zero "00" eq_refl) as [H0 Hn].
  split; [exact H0 | exact (Hn "Unknown" eq_refl eq_refl)].
Defined.

Lemma C3_critical_warning :
  let f := mkField "0x00" "x" true 0 in
  parse_nvme_section ["Critical Warning:                   0x00"] =
  Ok [("critical_warning", f)]
  /\ ~ (has_num f = false /\ unit f = EmptyString).
Proof.
  split; [vm_compute; reflexivity|]. intros [H _]. discriminate H.
Qed.

(** C9: the numeric token the pattern finds at the start of the value has
    its commas removed and is read as a signed 64-bit integer.  The field
    has a value exactly when there is such a token, a digit is left in it
    and the decimal number it writes fits 64 bits; the value is then that
    number.  The number is the one the decimal numbers of the Standard
    Library read from the token. *)
Theorem C9_value_of_numeric_token (val : string) :
  let f := field_of_value val in
  match leading_number val with
  | None => has_num f = false
  | Some tok =>
      match decimal_value tok with
      | None => has_num f = false
      | Some v =>
          if fits_int64 v then has_num f = true /\ num f = v
          else has_num f = false
      end
  end.
Proof.
  cbv zeta. rewrite field_of_value_scan. unfold leading_number.
  destruct (scan_number val) as [[tok rest]|] eqn:Hscan; [|reflexivity].
  cbn [option_map fst].
  destruct (scan_signed_token _ _ _ Hscan) as (sg & body & -> & Hsg & Hbody).
  rewrite <- (token_value_decimal sg body Hsg Hbody).
  destruct (token_value (sg ++ body)) as [v|]; [|reflexivity].
  destruct (fits_int64 v); [split|]; reflexivity.
Qed.

Lemma C9_thousands_separators :
  (has_num (field_of_value "1,234,567 [632 GB]") = true
   /\ num (field_of_value "1,234,567 [632 GB]") = 1234567)
  /\ (has_num (field_of_value "-42 C") = true
      /\ num (field_of_value "-42 C") = -42)
  /\ (has_num (field_of_value "+1,024") = true
      /\ num (field_of_value "+1,024") = 1024)
  /\ has_num (field_of_value "9,223,372,036,854,775,808") = false
  /\ has_num (field_of_value ",,, items") = false
  /\ has_num (field_of_value "Unknown") = false.
Proof.
  split; [exact (C9_value_of_numeric_token "1,234,567 [632 GB]")|].
  split; [exact (C9_value_of_numeric_token "-42 C")|].
  split; [exact (C9_value_of_numeric_token "+1,024")|].
  split; [exact (C9_value_of_numeric_token "9,223,372,036,854,775,808")|].
  split; [exact (C9_value_of_numeric_token ",,, items")|].
  exact (C9_value_of_numeric_token "Unknown").
Defined.

Example value_absent_unknown :
  field_of_value "Unknown" = mkField "Unknown" EmptyString false 0.
Proof. vm_compute. reflexivity. Qed.

Example value_absent_overflow :
  field_of_value "9,223,372,036,854,775,808" =
  mkField "9,223,372,036,854,775,808" EmptyString false 0.
Proof. vm_compute. reflexivity. Qed.

Example value_largest :
  field_of_value "9,223,372,036,854,775,807" =
  mkField "9,223,372,036,854,775,807" EmptyString true 9223372036854775807.
Proof. vm_compute. reflexivity. Qed.

Example value_absent_commas_only :
  field_of_value ",,, items" = mkField ",,, items" "items" false 0.
Proof. vm_compute. reflexivity. Qed.

(* ================================================================== *)
(** ** The ordered map *)
(* ================================================================== *)

Section MapFacts.

Context {V : Type}.

Lemma compare_refl (k : string) : String.compare k k = Eq.
Proof. now apply String_as_OT.cmp_eq. Qed.

Lemma compare_eqb (k k' : string) :
  String.eqb k k' = match String.compare k k' with Eq => true | _ => false end.
Proof.
  destruct (String.eqb_spec k k') as [->|Hne].
  - now rewrite compare_refl.
  - destruct (String.compare k k') eqn:Hc; try reflexivity.
    now apply String_as_OT.cmp_eq in Hc.
Qed.

Lemma map_find_set_same (k : string) (v : V) (m : map V) :
  map_find k (map_set k v m) = Some v.
Proof.
  induction m as [|[k' v'] m IH]; simpl.
  - now rewrite String.eqb_refl.
  - destruct (String.compare k k') eqn:Hc; simpl.
    + now rewrite String.eqb_refl.
    + now rewrite String.eqb_refl.
    + rewrite compare_eqb, Hc. exact IH.
Qed.

Lemma map_find_set_other (k k' : string) (v : V) (m : map V) :
  k <> k' -> map_find k (map_set k' v m) = map_find k m.
Proof.
  intros Hne. apply String.eqb_neq in Hne.
  induction m as [|[k1 v1] m IH]; simpl.
  - now rewrite Hne.
  - destruct (String.compare k' k1) eqn:Hc; simpl.
    + apply String_as_OT.cmp_eq in Hc. subst k1. now rewrite Hne.
    + now rewrite Hne.
    + destruct (String.eqb k k1); [reflexivity | exact IH].
Qed.

Lemma key_lt_trans (a b c : string) : key_lt a b -> key_lt b c -> key_lt a c.
Proof.
  unfold key_lt. intros H1 H2.
  apply String_as_OT.cmp_lt in H1, H2. apply String_as_OT.cmp_lt.
  eapply String_as_OT.lt_trans; eassumption.
Qed.

Lemma compare_gt_lt (a b : string) : String.compare a b = Gt -> key_lt b a.
Proof.
  unfold key_lt. intros H. rewrite String_as_OT.cmp_antisym.
  change String_as_OT.cmp with String.compare. now rewrite H.
Qed.

(** Assignment keeps the entries in strictly increasing key order. *)
Lemma map_set_sorted (k : string) (v : V) (m : map V) :
  StronglySorted key_lt (keys m) ->
  StronglySorted key_lt (keys (map_set k v m)).
Proof.
  unfold keys. induction m as [|[k' v'] m IH]; simpl; intros Hs.
  - constructor; constructor.
  - apply StronglySorted_inv in Hs as [Hs Hall].
    destruct (String.compare k k') eqn:Hc; simpl.
    + apply String_as_OT.cmp_eq in Hc. subst k'. now constructor.
    + constructor; [now constructor|].
      constructor; [exact Hc|].
      eapply Forall_impl; [|exact Hall].
      intros x Hx. eapply key_lt_trans; eassumption.
    + constructor; [now apply IH|].
      clear IH Hs. induction m as [|[k2 v2] m IHm]; simpl in *.
      * constructor; [now apply compare_gt_lt | constructor].
      * apply Forall_inv in Hall as Hk2. apply Forall_inv_tail in Hall.
        destruct (String.compare k k2) eqn:Hc2; simpl.
        -- constructor; [now apply compare_gt_lt | exact Hall].
        -- constructor; [now apply compare_gt_lt|].
           constructor; assumption.
        -- constructor; [exact Hk2 | now apply IHm].
Qed.

End MapFacts.

(* ================================================================== *)
(** ** The string operations of the parser never throw *)
(* ================================================================== *)

Lemma find_from_range (c : ascii) (s : string) (i : Z) :
  find_from i c s = npos \/ i <= find_from i c s < i + size s.
Proof.
  revert i. induction s as [|d s IH]; intros i; simpl; [now left|].
  unfold size in *. simpl String.length. rewrite Nat2Z.inj_succ.
  destruct (Ascii.eqb d c); [right; lia|].
  destruct (IH (i + 1)) as [H|H]; [now left | right; lia].
Qed.

Lemma size_nonneg (s : string) : 0 <= size s.
Proof. unfold size. lia. Qed.

(** The position after the one [find] returns is never past the end, found
    or not: [npos + 1] wraps around to 0. *)
Lemma after_find_in_range (s : string) (c : ascii) :
  (size s <? size_add (find s c) 1) = false.
Proof.
  apply Z.ltb_ge. unfold size_add, find.
  destruct (find_from_range c s 0) as [-> | H].
  - vm_compute Z.modulo. apply size_nonneg.
  - assert (Hm : (find_from 0 c s + 1) mod size_max <= find_from 0 c s + 1).
    { apply Z.mod_le; [lia | reflexivity]. }
    lia.
Qed.

Lemma header_value_ok (t : string) : exists v, header_value t = Ok v.
Proof.
  unfold header_value, substr. rewrite after_find_in_range.
  eexists. reflexivity.
Qed.

Lemma nvme_line_ok (out : map Field) (l : string) :
  exists out', nvme_line out l = Ok out'.
Proof.
  unfold nvme_line. destruct (find l ":" =? npos); [now eexists|].
  unfold substr_n, substr. rewrite after_find_in_range.
  destruct (Z.ltb_spec (size l) 0) as [H|_];
    [pose proof (size_nonneg l); lia|].
  eexists. reflexivity.
Qed.

Lemma nvme_loop_ok (lines : list string) :
  forall out, exists m, nvme_loop lines out = Ok m.
Proof.
  induction lines as [|l lines IH]; intros out; simpl; [now eexists|].
  destruct (nvme_line_ok out l) as [out' ->]. apply IH.
Qed.

Lemma nvme_loop_app (a b : list string) (out : map Field) :
  nvme_loop (a ++ b)%list out = bind (nvme_loop a out) (nvme_loop b).
Proof.
  revert out. induction a as [|l a IH]; intros out; simpl; [reflexivity|].
  destruct (nvme_line out l); simpl; [apply IH | reflexivity].
Qed.

(** What one line of the report does to the identity entries: nothing, or
    one assignment to the entry its prefix names. *)
Lemma scan_line_kv (st : Scan) (line : string) :
  exists st',
    scan_line st line = Ok st'
    /\ (kv st' = kv st
        \/ exists k v, identity_key (rtrim (ltrim line)) = Some k
                       /\ kv st' = map_set k v (kv st)).
Proof.
  unfold scan_line, identity_key.
  set (t := rtrim (ltrim line)).
  destruct (header_value_ok t) as [v Hv].
  destruct (empty t); [eexists; split; [reflexivity | now left]|].
  destruct (starts_with t "Device Model:" || starts_with t "Model Number:").
  { rewrite Hv. eexists; split; [reflexivity|]. right. now exists "model", v. }
  destruct (starts_with t "Serial Number:").
  { rewrite Hv. eexists; split; [reflexivity|]. right. now exists "serial", v. }
  destruct (starts_with t "Firmware Version:").
  { rewrite Hv. eexists; split; [reflexivity|]. right. now exists "firmware", v. }
  destruct (starts_with t "SMART/Health Information");
    [eexists; split; [reflexivity | now left]|].
  destruct (in_nvme st); [|eexists; split; [reflexivity | now left]].
  destruct (starts_with t "Error Information" || starts_with t "Self-test Log"
            || starts_with t "===");
    eexists; split; try reflexivity; now left.
Qed.

Lemma scan_lines_ok (lines : list string) :
  forall st, exists st', scan_lines lines st = Ok st'.
Proof.
  induction lines as [|l lines IH]; intros st; simpl; [now eexists|].
  destruct (scan_line_kv st l) as (st1 & -> & _). apply IH.
Qed.

Lemma scan_lines_app (a b : list string) (st : Scan) :
  scan_lines (a ++ b)%list st = bind (scan_lines a st) (scan_lines b).
Proof.
  revert st. induction a as [|l a IH]; intros st; simpl; [reflexivity|].
  destruct (scan_line st l); simpl; [apply IH | reflexivity].
Qed.

Lemma parse_report_ok (out : string) : exists r, parse_report out = Ok r.
Proof.
  unfold parse_report.
  destruct (scan_lines_ok (getlines out) (mkScan [] [] false)) as [st ->].
  simpl. destruct (nvme_loop_ok (nvme_lines st) []) as [m Hm].
  unfold parse_nvme_section. rewrite Hm. now eexists.
Qed.

(** A line that is not recognised leaves the state alone outside the NVMe
    block. *)
Lemma scan_line_unrecognized (st : Scan) (line : string) :
  in_nvme st = false ->
  identity_key (rtrim (ltrim line)) = None ->
  starts_with (rtrim (ltrim line)) "SMART/Health Information" = false ->
  scan_line st line = Ok st.
Proof.
  unfold scan_line, identity_key. set (t := rtrim (ltrim line)).
  intros Hst Hid Hm.
  destruct (empty t); [reflexivity|].
  destruct (starts_with t "Device Model:" || starts_with t "Model Number:");
    [discriminate|].
  destruct (starts_with t "Serial Number:"); [discriminate|].
  destruct (starts_with t "Firmware Version:"); [discriminate|].
  rewrite Hm, Hst. reflexivity.
Qed.

(** A text none of whose lines is recognised leaves the section machine
    where it starts: no identity entry and no attribute line. *)
Lemma unrecognizable_report (out : string) :
  unrecognizable out = true ->
  scan_lines (getlines out) initial_scan = Ok initial_scan.
Proof.
  unfold unrecognizable. generalize (getlines out) as lines.
  assert (H : forall lines st,
             in_nvme st = false ->
             forallb
               (fun line =>
                  match identity_key (rtrim (ltrim line)) with
                  | Some _ => false
                  | None => negb (starts_with (rtrim (ltrim line))
                                    "SMART/Health Information")
                  end) lines = true ->
             scan_lines lines st = Ok st).
  { induction lines as [|l lines IH]; intros st Hst Hall; [reflexivity|].
    simpl in Hall. apply andb_prop in Hall as [Hl Hall].
    destruct (identity_key (rtrim (ltrim l))) eqn:Hid; [discriminate|].
    apply negb_true_iff in Hl.
    simpl. rewrite (scan_line_unrecognized st l Hst Hid Hl). simpl.
    now apply IH. }
  intros lines. now apply H.
Qed.

Lemma unrecognizable_parse (out : string) :
  unrecognizable out = true ->
  attribute_lines out = [] /\ parse_report out = Ok (mkParsed [] []).
Proof.
  intros H. unfold attribute_lines, parse_report.
  change (mkScan [] [] false) with initial_scan.
  rewrite (unrecognizable_report out H). split; reflexivity.
Qed.

(* ================================================================== *)
(** ** NVMe attribute lines *)
(* ================================================================== *)

Lemma find_from_append (c : ascii) (k v : string) (i : Z) :
  all_chars (is_not c) k = true ->
  find_from i c (k ++ String c v) = i + size k.
Proof.
  revert i. induction k as [|d k IH]; intros i Hk; simpl.
  - rewrite Ascii.eqb_refl. unfold size. simpl. lia.
  - simpl in Hk. apply andb_prop in Hk as [Hd Hk].
    unfold is_not in Hd. apply negb_true_iff in Hd. rewrite Hd.
    rewrite IH by exact Hk. unfold size. simpl String.length. lia.
Qed.

Lemma size_append (a b : string) : size (a ++ b) = size a + size b.
Proof. unfold size. rewrite length_append. lia. Qed.

(** A line [key:value] whose key holds no colon assigns the field of the
    trimmed value to the normalised, trimmed key. *)
Lemma nvme_line_key_value (out : map Field) (k v : string) :
  all_chars (is_not ":") k = true ->
  size (k ++ ":" ++ v) < npos ->
  nvme_line out (k ++ ":" ++ v) =
  Ok (map_set (normalize (trim k)) (field_of_value (trim v)) out).
Proof.
  intros Hk Hsize. unfold nvme_line, find.
  change (k ++ ":" ++ v) with (k ++ String ":" v) in *.
  rewrite (find_from_append ":" k v 0 Hk). simpl (0 + size k).
  assert (Hlen : size (k ++ String ":" v) = size k + 1 + size v).
  { rewrite size_append. unfold size. simpl String.length. lia. }
  pose proof (size_nonneg k) as Hk0. pose proof (size_nonneg v) as Hv0.
  destruct (Z.eqb_spec (size k) npos) as [E|_]; [lia|].
  unfold substr_n, substr, size_add.
  assert (Hmod : (size k + 1) mod size_max = size k + 1).
  { apply Z.mod_small. unfold npos in Hsize. lia. }
  rewrite Hmod.
  destruct (Z.ltb_spec (size (k ++ String ":" v)) 0) as [?|_]; [lia|].
  destruct (Z.ltb_spec (size (k ++ String ":" v)) (size k + 1)) as [?|_]; [lia|].
  cbn [bind]. simpl (drop (Z.to_nat 0) _).
  assert (Hkey : take (Z.to_nat (size k)) (k ++ String ":" v) = k).
  { unfold size. rewrite Nat2Z.id. apply take_append. }
  assert (Hval : drop (Z.to_nat (size k + 1)) (k ++ String ":" v) = v).
  { replace (Z.to_nat (size k + 1)) with (String.length (k ++ ":"))
      by (rewrite length_append; unfold size; simpl; lia).
    replace (k ++ String ":" v) with ((k ++ ":") ++ v)
      by (now rewrite append_assoc).
    apply drop_append. }
  now rewrite Hkey, Hval.
Qed.

(** A line assigns the key [line_key] gives, or nothing. *)
Lemma nvme_line_assigns (out out' : map Field) (l : string) :
  nvme_line out l = Ok out' ->
  match line_key l with
  | Some k => exists f, out' = map_set k f out
  | None => out' = out
  end.
Proof.
  unfold nvme_line, line_key.
  destruct (find l ":" =? npos); [now intros [= <-]|].
  destruct (substr_n l 0 (find l ":")); [|discriminate].
  destruct (substr l (size_add (find l ":") 1)); [|discriminate].
  cbn [bind]. intros [= <-]. now eexists.
Qed.

(** Lines that do not assign a key leave its entry as it is. *)
Lemma nvme_loop_keep (k : string) (lines : list string) :
  forallb (fun l => negb (assigns k l)) lines = true ->
  forall out, exists m,
    nvme_loop lines out = Ok m /\ map_find k m = map_find k out.
Proof.
  induction lines as [|l lines IH]; intros Hall out; simpl.
  - now exists out.
  - simpl in Hall. apply andb_prop in Hall as [Hl Hall].
    apply negb_true_iff in Hl. unfold assigns in Hl.
    destruct (nvme_line_ok out l) as [out' Hout]. rewrite Hout. cbn [bind].
    destruct (IH Hall out') as (m & Hm & Hfind).
    exists m. split; [exact Hm|]. rewrite Hfind.
    pose proof (nvme_line_assigns out out' l Hout) as Hk.
    destruct (line_key l) as [k'|]; [|now subst].
    destruct Hk as [f ->]. apply String.eqb_neq in Hl.
    apply map_find_set_other. congruence.
Qed.

(** C4, as the program has it:
    a line of the NVMe block that holds a colon leaves an
    entry in the map also when its value is empty after trimming.  The raw
    text of that entry is the empty string and it has neither value nor
    unit; it stays so unless a later line assigns the same key. *)
Theorem C4_empty_value_is_stored (before after : list string) (k v : string) :
  all_chars (is_not ":") k = true ->
  size (k ++ ":" ++ v) < npos ->
  trim v = EmptyString ->
  forallb (fun l => negb (assigns (normalize (trim k)) l)) after = true ->
  exists m,
    parse_nvme_section (List.app before ((k ++ ":" ++ v) :: after)) = Ok m
    /\ map_find (normalize (trim k)) m =
       Some (mkField EmptyString EmptyString false 0).
Proof.
  intros Hk Hsize Hv Hafter. unfold parse_nvme_section. rewrite nvme_loop_app.
  destruct (nvme_loop_ok before []) as [m0 ->]. cbn [bind nvme_loop].
  rewrite (nvme_line_key_value m0 k v Hk Hsize), Hv. cbn [bind].
  destruct (nvme_loop_keep (normalize (trim k)) after Hafter
              (map_set (normalize (trim k)) (field_of_value EmptyString) m0))
    as (m & Hm & Hfind).
  exists m. split; [exact Hm|].
  rewrite Hfind, map_find_set_same. reflexivity.
Qed.

Lemma C4_available_spare_threshold :
  exists m,
    parse_nvme_section
      ["Temperature: 42 Celsius"; "Available Spare Threshold:   ";
       "Available Spare: 100%"] = Ok m
    /\ map_find "available_spare_threshold" m =
       Some (mkField EmptyString EmptyString false 0).
Proof.
  exact (C4_empty_value_is_stored
           ["Temperature: 42 Celsius"] ["Available Spare: 100%"]
           "Available Spare Threshold" "   "
           eq_refl eq_refl eq_refl eq_refl).
Defined.

Lemma C4_entry_with_empty_raw :
  exists f,
    parse_nvme_section ["Available Spare Threshold:"] =
    Ok [("available_spare_threshold", f)]
    /\ raw f = EmptyString.
Proof.
  exists (mkField EmptyString EmptyString false 0).
  split; vm_compute; reflexivity.
Qed.

(* ================================================================== *)
(** ** Identity lines *)
(* ================================================================== *)

Lemma substr_append (a b : string) : substr (a ++ b) (size a) = Ok b.
Proof.
  unfold substr. rewrite size_append.
  pose proof (size_nonneg b).
  destruct (Z.ltb_spec (size a + size b) (size a)) as [?|_]; [lia|].
  unfold size. rewrite Nat2Z.id. now rewrite drop_append.
Qed.

(** The value of an identity line: the text after the prefix, trimmed. *)
Lemma header_value_prefix (pre k rest : string) :
  In (pre, k) identity_prefixes ->
  header_value (pre ++ rest) = Ok (ltrim (rtrim rest)).
Proof.
  unfold header_value.
  intros [E|[E|[E|[E|[]]]]]; injection E as <- <-;
    match goal with
    | |- context [substr (?p ++ rest) ?n] =>
        change n with (size p); rewrite (substr_append p rest)
    end; reflexivity.
Qed.

Lemma starts_with_append (p r : string) : starts_with (p ++ r) p = true.
Proof.
  unfold starts_with. induction p as [|c p IH]; simpl.
  - now destruct r.
  - destruct (ascii_dec c c) as [_|Hne]; [exact IH | now elim Hne].
Qed.

(** An identity line assigns its entry, whatever the state of the loop. *)
Lemma scan_line_identity (st : Scan) (line pre k rest : string) :
  In (pre, k) identity_prefixes ->
  rtrim (ltrim line) = pre ++ rest ->
  scan_line st line = Ok (set_kv k (ltrim (rtrim rest)) st).
Proof.
  intros Hin Ht. unfold scan_line. rewrite Ht.
  rewrite (header_value_prefix pre k rest Hin).
  destruct Hin as [E|[E|[E|[E|[]]]]]; injection E as <- <-;
    rewrite starts_with_append; reflexivity.
Qed.

(** Lines that do not feed an entry leave it as it is. *)
Lemma scan_lines_keep (k : string) (lines : list string) :
  forallb (fun l => negb (feeds k l)) lines = true ->
  forall st, exists st',
    scan_lines lines st = Ok st' /\ map_find k (kv st') = map_find k (kv st).
Proof.
  induction lines as [|l lines IH]; intros Hall st; simpl.
  - now exists st.
  - simpl in Hall. apply andb_prop in Hall as [Hl Hall].
    apply negb_true_iff in Hl. unfold feeds in Hl.
    destruct (scan_line_kv st l) as (st1 & -> & Hkv). cbn [bind].
    destruct (IH Hall st1) as (st' & Hst' & Hfind).
    exists st'. split; [exact Hst'|]. rewrite Hfind.
    destruct Hkv as [->|(k' & v & Hid & ->)]; [reflexivity|].
    rewrite Hid in Hl. apply String.eqb_neq in Hl.
    apply map_find_set_other. congruence.
Qed.

(** C1, as the program has it:
    the identity entries are read in every state of the
    section machine.  A line whose trimmed text starts with one of the four
    prefixes assigns the trimmed rest of the line to its entry, whether the
    loop is inside the NVMe block or not, and the entry keeps that value
    unless a later line feeds it again.  In particular a [Firmware Version:]
    line between the [SMART/Health Information] marker and the end of the
    block does update the firmware. *)
Theorem C1_identity_read_in_any_state
    (before after : list string) (line pre k rest : string) (st0 : Scan) :
  In (pre, k) identity_prefixes ->
  rtrim (ltrim line) = pre ++ rest ->
  forallb (fun l => negb (feeds k l)) after = true ->
  exists st,
    scan_lines (List.app before (line :: after)) st0 = Ok st
    /\ map_find k (kv st) = Some (ltrim (rtrim rest)).
Proof.
  intros Hin Ht Hafter. rewrite scan_lines_app.
  destruct (scan_lines_ok before st0) as [st1 ->]. cbn [bind scan_lines].
  rewrite (scan_line_identity st1 line pre k rest Hin Ht). cbn [bind].
  destruct (scan_lines_keep k after Hafter (set_kv k (ltrim (rtrim rest)) st1))
    as (st & Hst & Hfind).
  exists st. split; [exact Hst|].
  rewrite Hfind. unfold set_kv. cbn [kv]. apply map_find_set_same.
Qed.

Lemma C1_firmware_inside_block :
  exists st,
    scan_lines
      ["Firmware Version: 1B4QFXO7";
       "SMART/Health Information (NVMe Log 0x02)";
       "Temperature:                        42 Celsius";
       "Firmware Version: 9.9.9";
       "Error Information (NVMe Log 0x01, 16 of 64 entries)"]
      (mkScan [] [] false) = Ok st
    /\ map_find "firmware" (kv st) = Some "9.9.9".
Proof.
  exact (C1_identity_read_in_any_state
           ["Firmware Version: 1B4QFXO7";
            "SMART/Health Information (NVMe Log 0x02)";
            "Temperature:                        42 Celsius"]
           ["Error Information (NVMe Log 0x01, 16 of 64 entries)"]
           "Firmware Version: 9.9.9" "Firmware Version:" "firmware" " 9.9.9"
           (mkScan [] [] false)
           (or_intror (or_intror (or_intror (or_introl eq_refl))))
           eq_refl eq_refl).
Defined.

Lemma C1_boundary_crossing :
  scan_lines
    ["Firmware Version: 1B4QFXO7";
     "SMART/Health Information (NVMe Log 0x02)";
     "Temperature:                        42 Celsius"]
    (mkScan [] [] false) =
  Ok (mkScan [("firmware", "1B4QFXO7")]
             ["Temperature:                        42 Celsius"] true)
  /\ parse_report
       (unlines
          ["Firmware Version: 1B4QFXO7";
           "SMART/Health Information (NVMe Log 0x02)";
           "Temperature:                        42 Celsius";
           "Firmware Version: 9.9.9";
           "Error Information (NVMe Log 0x01, 16 of 64 entries)"]) =
     Ok (mkParsed [("firmware", "9.9.9")]
                  [("temperature", mkField "42 Celsius" "Celsius" true 42)]).
Proof. split; vm_compute; reflexivity. Qed.

(* ================================================================== *)
(** ** Key normalisation *)
(* ================================================================== *)

Lemma normalize_char_twice (c : ascii) :
  let f := fun c => tolower (if Ascii.eqb c " " then "_"%char else c) in
  let g := fun c => if Ascii.eqb c " " then "_"%char else c in
  g (f (g (f c))) = g (f c)
  /\ isupper (g (f c)) = false
  /\ Ascii.eqb (g (f c)) " " = false
  /\ g (f c) = g (tolower c).
Proof. by_cases_on_char c. Qed.

Lemma transform_compose (f g : ascii -> ascii) (s : string) :
  transform g (transform f s) = transform (fun c => g (f c)) s.
Proof.
  induction s as [|c s IH]; simpl; [reflexivity | now rewrite IH].
Qed.

Lemma transform_ext (f g : ascii -> ascii) (s : string) :
  (forall c, f c = g c) -> transform f s = transform g s.
Proof.
  intros H. induction s as [|c s IH]; simpl; [reflexivity|].
  now rewrite H, IH.
Qed.

Lemma all_chars_transform (p : ascii -> bool) (f : ascii -> ascii) (s : string) :
  (forall c, p (f c) = true) -> all_chars p (transform f s) = true.
Proof.
  intros H. induction s as [|c s IH]; simpl; [reflexivity|].
  now rewrite H, IH.
Qed.

(** C8: the key normalisation of the program is the three steps of the
    specification (lowercase, spaces to underscores, the rest preserved);
    applying it twice is applying it once, and its result holds neither an
    uppercase ASCII letter nor a space. *)
Theorem C8_normalize_idempotent (k : string) :
  normalize k = normalize_spec k
  /\ normalize (normalize k) = normalize k
  /\ all_chars (fun c => negb (isupper c) && negb (Ascii.eqb c " "))
       (normalize k) = true.
Proof.
  unfold normalize, normalize_spec. rewrite !transform_compose.
  split; [|split].
  - apply transform_ext. intros c. apply (normalize_char_twice c).
  - apply transform_ext. intros c. apply (normalize_char_twice c).
  - apply all_chars_transform. intros c.
    destruct (normalize_char_twice c) as (_ & Hu & Hs & _).
    cbv zeta in Hu, Hs. now rewrite Hu, Hs.
Qed.

Example normalize_data_units_read :
  normalize "Data Units Read" = "data_units_read".
Proof. reflexivity. Qed.

Example normalize_keeps_other_characters :
  normalize "Warning  Comp. Temp-1/2 Time" = "warning__comp._temp-1/2_time".
Proof. reflexivity. Qed.

(* ================================================================== *)
(** ** The command line and the exit status *)
(* ================================================================== *)

Lemma option_tokens_flag (a : string) (rest : list string) :
  String.eqb a "--device" = false ->
  option_tokens (a :: rest) = a :: option_tokens rest.
Proof.
  intros Ha. simpl. rewrite Ha. now destruct rest.
Qed.

Lemma in_cons_other (h a : string) (l : list string) :
  String.eqb a h = false -> In h (a :: l) -> In h l.
Proof.
  intros Hne [E|H]; [|exact H].
  subst a. now rewrite String.eqb_refl in Hne.
Qed.

(** The argument loop returns through the help branch as soon as [-h] or
    [--help] stands in option position. *)
Lemma scan_args_help (n : nat) :
  forall args o,
    (List.length args <= n)%nat ->
    In "-h" (option_tokens args) \/ In "--help" (option_tokens args) ->
    scan_args args o = None.
Proof.
  induction n as [|n IH]; intros args o Hlen Hin.
  - destruct args; [|simpl in Hlen; lia]. simpl in Hin. tauto.
  - destruct args as [|a rest]; [simpl in Hin; tauto|].
    simpl in Hlen. cbn [scan_args].
    destruct (String.eqb_spec a "--list") as [->|_].
    { apply IH; [lia|]. rewrite option_tokens_flag in Hin by reflexivity.
      destruct Hin as [H|H];
        [left | right]; eapply in_cons_other; try exact H; reflexivity. }
    destruct (String.eqb_spec a "--json") as [->|_].
    { apply IH; [lia|]. rewrite option_tokens_flag in Hin by reflexivity.
      destruct Hin as [H|H];
        [left | right]; eapply in_cons_other; try exact H; reflexivity. }
    destruct (String.eqb_spec a "--include-raw") as [->|_].
    { apply IH; [lia|]. rewrite option_tokens_flag in Hin by reflexivity.
      destruct Hin as [H|H];
        [left | right]; eapply in_cons_other; try exact H; reflexivity. }
    destruct rest as [|v rest'].
    + destruct (String.eqb a "-h" || String.eqb a "--help") eqn:Hh;
        [reflexivity|].
      apply orb_false_elim in Hh as [H1 H2]. simpl in Hin.
      destruct Hin as [[E|[]]|[E|[]]]; subst a; discriminate.
    + destruct (String.eqb_spec a "--device") as [->|Hd].
      * apply IH; [simpl in Hlen; lia|].
        simpl in Hin. destruct Hin as [[E|H]|[E|H]]; try discriminate; tauto.
      * destruct (String.eqb a "-h" || String.eqb a "--help") eqn:Hh;
          [reflexivity|].
        apply orb_false_elim in Hh as [H1 H2].
        apply IH; [lia|].
        rewrite option_tokens_flag in Hin by now apply String.eqb_neq.
        destruct Hin as [H|H];
          [left | right]; eapply in_cons_other; try exact H; assumption.
Qed.

(** C10: when [-h] or [--help] is among the options (any argument but the
    value that [--device] takes), the run prints the usage line on standard
    output and returns 0, whatever the host answers to the commands: the
    help branch returns before smartctl is looked for. *)
Theorem C10_help_before_discovery (shell : string -> string) (args : list string) :
  In "-h" (option_tokens args) \/ In "--help" (option_tokens args) ->
  main shell args = Ok (mkRun 0 usage EmptyString).
Proof.
  intros Hin. unfold main.
  now rewrite (scan_args_help (List.length args) args no_options (le_n _) Hin).
Qed.

Lemma C10_help_without_smartctl :
  find_smartctl (fun _ => EmptyString) = EmptyString
  /\ main (fun _ => EmptyString) ["--json"; "-h"] = Ok (mkRun 0 usage EmptyString)
  /\ main (fun _ => EmptyString) ["--help"; "--list"] = Ok (mkRun 0 usage EmptyString).
Proof.
  split; [reflexivity|]. split.
  - apply C10_help_before_discovery. left. simpl. tauto.
  - apply C10_help_before_discovery. right. simpl. tauto.
Defined.

(* ================================================================== *)
(** ** The JSON emitter *)
(* ================================================================== *)

Lemma sep_all_app (a b : list string) (first : bool) :
  sep_all first (a ++ b)%list = sep_all first a ++ sep_all (first && is_nil a) b.
Proof.
  revert first. induction a as [|x a IH]; intros first; simpl.
  - now rewrite andb_true_r.
  - rewrite IH, andb_false_r. simpl. now rewrite append_assoc.
Qed.

Lemma sep_all_rest (l : list string) :
  sep_all false l =
  match l with
  | [] => EmptyString
  | _ :: _ => "," ++ String.concat "," l
  end.
Proof.
  induction l as [|y l IH]; [reflexivity|].
  cbn [sep_all]. rewrite IH. destruct l as [|z l].
  - cbn [String.concat]. apply append_empty_r.
  - cbn [String.concat]. now rewrite append_assoc.
Qed.

Lemma sep_all_concat (l : list string) :
  sep_all true l = String.concat "," l.
Proof.
  destruct l as [|x l]; [reflexivity|].
  cbn [sep_all]. rewrite sep_all_rest. destruct l as [|y l].
  - cbn [String.concat]. apply append_empty_r.
  - reflexivity.
Qed.

Lemma emit_member (js0 : string) (l : list string) (x : string) :
  put x (add_comma (after_members js0 l)) = after_members js0 (l ++ [x])%list.
Proof.
  unfold after_members, put, add_comma. cbn [fst snd].
  rewrite sep_all_app. simpl sep_all.
  assert (Hnil : is_nil (l ++ [x])%list = false) by now destruct l.
  rewrite Hnil. f_equal.
  destruct (is_nil l); simpl; now rewrite ?append_assoc, ?append_empty_r.
Qed.

Lemma emit_members (js0 : string) (kv : map string) :
  forall l,
    fold_left (fun st p => put (json_member p) (add_comma st)) kv
      (after_members js0 l) =
    after_members js0 (l ++ List.map json_member kv)%list.
Proof.
  induction kv as [|p kv IH]; intros l; cbn [fold_left List.map].
  - now rewrite app_nil_r.
  - rewrite emit_member, IH. now rewrite <- app_assoc.
Qed.

Lemma emit_fields (nvme : map Field) :
  forall js f2,
    fold_left
      (fun (acc : string * bool) n =>
         let '(js, f2) := acc in
         ((if f2 then js else js ++ ",") ++ json_field n, false))
      nvme (js, f2) =
    (js ++ sep_all f2 (List.map json_field nvme), f2 && is_nil nvme).
Proof.
  induction nvme as [|n nvme IH]; intros js f2; simpl.
  - now rewrite append_empty_r, andb_true_r.
  - rewrite IH, andb_false_r. f_equal.
    destruct f2; now rewrite ?append_assoc.
Qed.

Lemma nvme_block_member (js0 : string) (l : list string) (nvme : map Field) :
  nvme_block nvme (after_members js0 l) =
  after_members js0 (l ++ [nvme_health_member nvme])%list.
Proof.
  unfold nvme_block. cbv zeta.
  rewrite <- emit_member. rewrite emit_fields.
  unfold put, nvme_health_member. cbn [fst snd].
  rewrite sep_all_concat. f_equal.
  now rewrite !append_assoc.
Qed.

(** The text of the emitter: the members between the braces, separated by
    commas: the entries of [kv] in map order, then the NVMe block if the map
    is not empty, then the placeholder if it was asked for. *)
Lemma build_json_members (kv : map string) (nvme : map Field) (inc : bool) :
  build_json_from_parsed kv nvme inc =
  "{" ++ String.concat "," (top_level_members kv nvme inc) ++ nl ++ "}" ++ nl.
Proof.
  unfold build_json_from_parsed, top_level_members. cbv zeta.
  change ("{", true) with (after_members "{" []).
  rewrite emit_members. cbn [List.app].
  set (M := List.map json_member kv).
  destruct (map_empty nvme); cbn [negb]; destruct inc;
    rewrite ?nvme_block_member, ?emit_member;
    unfold after_members; cbn [fst]; rewrite sep_all_concat;
    rewrite <- ?app_assoc; cbn [List.app]; rewrite ?app_nil_r;
    now rewrite ?append_assoc.
Qed.

(** The identity map holds at most the three entries, in key order. *)
Lemma identity_entries_set (fo mo so : option string) (k v : string) :
  k = "model" \/ k = "serial" \/ k = "firmware" ->
  exists fo' mo' so',
    map_set k v (identity_entries fo mo so) = identity_entries fo' mo' so'.
Proof.
  intros [->|[->| ->]].
  - exists fo, (Some v), so. destruct fo, mo, so; reflexivity.
  - exists fo, mo, (Some v). destruct fo, mo, so; reflexivity.
  - exists (Some v), mo, so. destruct fo, mo, so; reflexivity.
Qed.

Lemma identity_entries_find (fo mo so : option string) :
  map_find "firmware" (identity_entries fo mo so) = fo
  /\ map_find "model" (identity_entries fo mo so) = mo
  /\ map_find "serial" (identity_entries fo mo so) = so.
Proof. destruct fo, mo, so; repeat split. Qed.

Lemma identity_key_cases (t k : string) :
  identity_key t = Some k -> k = "model" \/ k = "serial" \/ k = "firmware".
Proof.
  unfold identity_key.
  destruct (starts_with t "Device Model:" || starts_with t "Model Number:");
    [intros [= <-]; tauto|].
  destruct (starts_with t "Serial Number:"); [intros [= <-]; tauto|].
  destruct (starts_with t "Firmware Version:"); [intros [= <-]; tauto|].
  discriminate.
Qed.

Lemma scan_lines_identity_entries (lines : list string) :
  forall st st',
    (exists fo mo so, kv st = identity_entries fo mo so) ->
    scan_lines lines st = Ok st' ->
    exists fo mo so, kv st' = identity_entries fo mo so.
Proof.
  induction lines as [|l lines IH]; intros st st' Hst Hrun; simpl in Hrun.
  - injection Hrun as <-. exact Hst.
  - destruct (scan_line_kv st l) as (st1 & Hl & Hkv). rewrite Hl in Hrun.
    cbn [bind] in Hrun. apply (IH st1 st'); [|exact Hrun].
    destruct Hst as (fo & mo & so & Hst).
    destruct Hkv as [->|(k & v & Hid & ->)]; [now exists fo, mo, so|].
    rewrite Hst. apply identity_entries_set.
    eapply identity_key_cases; eassumption.
Qed.

(** What one line of the NVMe block does to the map: nothing, or one
    assignment. *)
Lemma nvme_line_cases (out out' : map Field) (l : string) :
  nvme_line out l = Ok out' ->
  out' = out \/ exists k f, out' = map_set k f out.
Proof.
  unfold nvme_line.
  destruct (find l ":" =? npos); [intros [= <-]; now left|].
  destruct (substr_n l 0 (find l ":")); [|discriminate].
  destruct (substr l (size_add (find l ":") 1)); [|discriminate].
  cbn [bind]. intros [= <-]. right. now eexists _, _.
Qed.

Lemma nvme_loop_sorted (lines : list string) :
  forall out m,
    StronglySorted key_lt (keys out) ->
    nvme_loop lines out = Ok m ->
    StronglySorted key_lt (keys m).
Proof.
  induction lines as [|l lines IH]; intros out m Hs Hrun; simpl in Hrun.
  - now injection Hrun as <-.
  - destruct (nvme_line out l) as [out'|] eqn:Hl; [|discriminate].
    cbn [bind] in Hrun. apply (IH out' m); [|exact Hrun].
    destruct (nvme_line_cases out out' l Hl) as [->|(k & f & ->)];
      [exact Hs | now apply map_set_sorted].
Qed.

(** C5, as the program has it:
    the JSON text is the list of its members between braces,
    separated by commas.  The identity entries come first, in the key order
    of the map that holds them: firmware, model, serial, each only if it is
    present; then [nvme_health] if the NVMe map is not empty; then [raw] if
    it was asked for.  Inside [nvme_health] the attributes are written in
    the order of the map, whose keys are strictly increasing. *)
Theorem C5_json_member_order (out : string) (r : ParsedReport) (inc : bool) :
  parse_report out = Ok r ->
  build_json_from_parsed (identity r) (nvme r) inc =
    "{" ++ String.concat ","
             (List.map json_member
                (identity_entries (firmware r) (model r) (serial r))
              ++ (if map_empty (nvme r) then []
                  else [nvme_health_member (nvme r)])
              ++ (if inc then [raw_placeholder] else []))%list
        ++ nl ++ "}" ++ nl
  /\ StronglySorted key_lt (keys (nvme r)).
Proof.
  unfold parse_report. intros Hr.
  destruct (scan_lines (getlines out) (mkScan [] [] false)) as [st|] eqn:Hscan;
    [|discriminate].
  cbn [bind] in Hr.
  destruct (parse_nvme_section (nvme_lines st)) as [m|] eqn:Hm; [|discriminate].
  cbn [bind] in Hr. injection Hr as <-. cbn [identity nvme].
  split.
  - rewrite build_json_members. unfold top_level_members.
    destruct (scan_lines_identity_entries (getlines out) (mkScan [] [] false) st)
      as (fo & mo & so & Hkv);
      [now exists None, None, None | exact Hscan|].
    unfold firmware, model, serial. cbn [identity]. rewrite Hkv.
    destruct (identity_entries_find fo mo so) as (-> & -> & ->).
    reflexivity.
  - apply (nvme_loop_sorted (nvme_lines st) [] m); [constructor | exact Hm].
Qed.

Lemma C5_report_with_two_attributes :
  let out :=
    unlines ["Model Number:  Samsung SSD 980 1TB";
             "Firmware Version: 1B4QFXO7";
             "SMART/Health Information (NVMe Log 0x02)";
             "Temperature:                        42 Celsius";
             "Available Spare:                    100%"] in
  let r :=
    mkParsed [("firmware", "1B4QFXO7"); ("model", "Samsung SSD 980 1TB")]
             [("available_spare", mkField "100%" "%" true 100);
              ("temperature", mkField "42 Celsius" "Celsius" true 42)] in
  parse_report out = Ok r
  /\ build_json_from_parsed (identity r) (nvme r) true =
     "{" ++ String.concat ","
              [json_member ("firmware", "1B4QFXO7");
               json_member ("model", "Samsung SSD 980 1TB");
               nvme_health_member (nvme r);
               raw_placeholder]
         ++ nl ++ "}" ++ nl.
Proof.
  intros out r.
  assert (H : parse_report out = Ok r) by (vm_compute; reflexivity).
  split; [exact H|].
  exact (proj1 (C5_json_member_order out r true H)).
Defined.

Lemma C5_firmware_written_first :
  let kv := [("firmware", "1B4QFXO7"); ("model", "Samsung SSD 980 1TB")] in
  parse_report
    (unlines ["Model Number:  Samsung SSD 980 1TB";
              "Firmware Version: 1B4QFXO7"]) = Ok (mkParsed kv [])
  /\ build_json_from_parsed kv [] false =
     "{" ++ nl ++ "  " ++ quote ++ "firmware" ++ quote ++ ": "
         ++ quote ++ "1B4QFXO7" ++ quote ++ ","
         ++ nl ++ "  " ++ quote ++ "model" ++ quote ++ ": "
         ++ quote ++ "Samsung SSD 980 1TB" ++ quote
         ++ nl ++ "}" ++ nl.
Proof. split; vm_compute; reflexivity. Qed.

(* ================================================================== *)
(** ** The scenarios of the specification, run on the program *)
(* ================================================================== *)

Section Scenarios.

(** A host where smartctl is installed and sees two devices. *)
Let host (cmd : string) : string :=
  if String.eqb cmd "command -v smartctl 2>/dev/null" then
    "/usr/sbin/smartctl" ++ nl
  else if String.eqb cmd "/usr/sbin/smartctl --scan" then
    unlines ["/dev/sda -d scsi"; "/dev/nvme0 -d nvme"]
  else if String.eqb cmd "/usr/sbin/smartctl -a /dev/nvme0 2>&1" then
    unlines ["Model Number:  Samsung SSD 980 1TB";
             "Serial Number: S5GXNX0R123456";
             "Firmware Version: 1B4QFXO7";
             "=== START OF SMART DATA SECTION ===";
             "SMART/Health Information (NVMe Log 0x02)";
             "Critical Warning:                   0x00";
             "Temperature:                        42 Celsius";
             "Available Spare:                    100%";
             "Data Units Read:                    1,234,567 [632 GB]";
             "Power On Hours:                     1,024";
             "Error Information (NVMe Log 0x01, 16 of 64 entries)"]
  else if String.eqb cmd "/usr/sbin/smartctl -a /dev/sda 2>&1" then
    unlines ["Device Model:     ST2000DM008-2FR102"]
  else EmptyString.

(** S1, plain text. *)
Example nvme_typical_plain :
  main host ["--device"; "/dev/nvme0"] =
  Ok (mkRun 0
        (unlines ["Device: /dev/nvme0";
                  "Model: Samsung SSD 980 1TB";
                  "Serial: S5GXNX0R123456";
                  "Firmware: 1B4QFXO7";
                  "";
                  "NVMe SMART/Health:";
                  "available_spare: 100%";
                  "critical_warning: 0x00";
                  "data_units_read: 1,234,567 [632 GB]";
                  "power_on_hours: 1,024";
                  "temperature: 42 Celsius"])
        EmptyString).
Proof. vm_compute. reflexivity. Qed.

(** S1, the parsed report. *)
Example nvme_typical_report :
  parse_report (host "/usr/sbin/smartctl -a /dev/nvme0 2>&1") =
  Ok (mkParsed
        [("firmware", "1B4QFXO7"); ("model", "Samsung SSD 980 1TB");
         ("serial", "S5GXNX0R123456")]
        [("available_spare", mkField "100%" "%" true 100);
         ("critical_warning", mkField "0x00" "x" true 0);
         ("data_units_read",
          mkField "1,234,567 [632 GB]" "1,234,567" true 1234567);
         ("power_on_hours", mkField "1,024" EmptyString true 1024);
         ("temperature", mkField "42 Celsius" "Celsius" true 42)]).
Proof. vm_compute. reflexivity. Qed.

(** S2: an ATA device has a model and no NVMe attribute. *)
Example ata_only :
  parse_report (host "/usr/sbin/smartctl -a /dev/sda 2>&1") =
  Ok (mkParsed [("model", "ST2000DM008-2FR102")] [])
  /\ main host ["--json"; "--device"; "/dev/sda"] =
     Ok (mkRun 0
           ("{" ++ nl ++ "  " ++ quote ++ "model" ++ quote ++ ": "
                ++ quote ++ "ST2000DM008-2FR102" ++ quote ++ nl ++ "}" ++ nl)
           EmptyString).
Proof. split; vm_compute; reflexivity. Qed.

(** S3: list mode. *)
Example list_mode_plain :
  main host ["--list"] = Ok (mkRun 0 (unlines ["/dev/sda"; "/dev/nvme0"]) EmptyString).
Proof. vm_compute. reflexivity. Qed.

Example list_mode_json :
  main host ["--list"; "--json"] =
  Ok (mkRun 0
        ("{" ++ nl ++ "  " ++ quote ++ "devices" ++ quote ++ ": ["
             ++ nl ++ "    " ++ quote ++ "/dev/sda" ++ quote ++ ","
             ++ nl ++ "    " ++ quote ++ "/dev/nvme0" ++ quote
             ++ nl ++ "  ]" ++ nl ++ "}" ++ nl)
        EmptyString).
Proof. vm_compute. reflexivity. Qed.

(** S4: smartctl is missing. *)
Example tool_missing :
  main (fun _ => EmptyString) ["--device"; "/dev/sda"] =
  Ok (mkRun 2 EmptyString ("smartctl not found. Install smartmontools." ++ nl)).
Proof. vm_compute. reflexivity. Qed.

(** S5: smartctl prints nothing for the device. *)
Example empty_report :
  main host ["--device"; "/dev/sdz"] =
  Ok (mkRun 0
        (unlines ["Device: /dev/sdz"; "Model: n/a"; "Serial: n/a";
                  "Firmware: n/a"])
        EmptyString).
Proof. vm_compute. reflexivity. Qed.

End Scenarios.

(* ================================================================== *)
(** ** Trimming *)
(* ================================================================== *)

Section PopBack.

Variable p : ascii -> bool.

Lemma pop_back_snoc (s : string) :
  s <> EmptyString -> s = pop_back s ++ String (back s) EmptyString.
Proof.
  induction s as [|c s IH]; [congruence|]. intros _.
  destruct s as [|d s]; [reflexivity|].
  change (String c (String d s) =
          String c (pop_back (String d s) ++ String (back (String d s)) EmptyString)).
  f_equal. apply IH. discriminate.
Qed.

Lemma pop_back_length (s : string) :
  s <> EmptyString -> S (String.length (pop_back s)) = String.length s.
Proof.
  intros H. rewrite (pop_back_snoc s H) at 2.
  rewrite length_append. simpl. lia.
Qed.

Lemma all_chars_append (a b : string) :
  all_chars p (a ++ b) = all_chars p a && all_chars p b.
Proof.
  induction a as [|c a IH]; simpl; [reflexivity|].
  now rewrite IH, andb_assoc.
Qed.

Lemma back_append_char (a : string) (c : ascii) :
  back (a ++ String c EmptyString) = c.
Proof.
  induction a as [|d a IH]; [reflexivity|].
  simpl append. destruct a; [reflexivity | exact IH].
Qed.

(** What the loop over the back of a string leaves: a prefix that is empty
    or ends with a character outside the class, the rest being in it. *)
Lemma pop_back_loop_spec (fuel : nat) :
  forall s, (String.length s <= fuel)%nat ->
  exists t,
    s = pop_back_loop p fuel s ++ t
    /\ all_chars p t = true
    /\ (pop_back_loop p fuel s = EmptyString
        \/ p (back (pop_back_loop p fuel s)) = false).
Proof.
  induction fuel as [|fuel IH]; intros s Hlen.
  - destruct s; [|simpl in Hlen; lia].
    exists EmptyString. simpl. auto.
  - cbn [pop_back_loop]. destruct s as [|c s'] eqn:Hs.
    { exists EmptyString. simpl. auto. }
    rewrite <- Hs in *. assert (Hne : s <> EmptyString) by (subst; discriminate).
    replace (empty s) with false by (subst; reflexivity). cbn [negb andb].
    destruct (p (back s)) eqn:Hb.
    + destruct (IH (pop_back s)) as (t & Ht & Hall & Hend).
      { pose proof (pop_back_length s Hne). lia. }
      exists (t ++ String (back s) EmptyString). split; [|split].
      * rewrite <- append_assoc, <- Ht. now apply pop_back_snoc.
      * rewrite all_chars_append, Hall. simpl. now rewrite Hb.
      * exact Hend.
    + exists EmptyString. rewrite append_empty_r. auto.
Qed.

Lemma pop_back_while_spec (s : string) :
  exists t,
    s = pop_back_while p s ++ t
    /\ all_chars p t = true
    /\ (pop_back_while p s = EmptyString \/ p (back (pop_back_while p s)) = false).
Proof. apply pop_back_loop_spec. lia. Qed.

Lemma pop_back_while_fixed (s : string) :
  s = EmptyString \/ p (back s) = false -> pop_back_while p s = s.
Proof.
  unfold pop_back_while. intros [->|H]; [reflexivity|].
  destruct (String.length s); [reflexivity|]. cbn [pop_back_loop].
  rewrite H. now rewrite andb_false_r.
Qed.

Lemma erase_front_while_spec (s : string) :
  s = take_while p s ++ erase_front_while p s
  /\ all_chars p (take_while p s) = true
  /\ (erase_front_while p s = EmptyString
      \/ p (front (erase_front_while p s)) = false).
Proof.
  split; [|split].
  - induction s as [|c s IH]; simpl; [reflexivity|].
    destruct (p c); simpl; [now rewrite <- IH | reflexivity].
  - apply all_chars_take_while.
  - induction s as [|c s IH]; simpl; [now left|].
    destruct (p c) eqn:Hc; [exact IH | right; exact Hc].
Qed.

End PopBack.

Lemma front_append (a b : string) :
  a <> EmptyString -> front (a ++ b) = front a.
Proof. destruct a; [congruence | reflexivity]. Qed.

Lemma trim_of_tight (t : string) : tight t -> trim t = t.
Proof.
  unfold tight, trim, ltrim, rtrim. intros [->|[Hf Hb]]; [reflexivity|].
  assert (Hl : erase_front_while isspace t = t).
  { destruct t as [|c t]; [reflexivity|]. simpl in *. now rewrite Hf. }
  rewrite Hl. apply pop_back_while_fixed. now right.
Qed.

(** The trimmed text is between two runs of white space. *)
Lemma trim_parts (s : string) :
  exists a b,
    s = a ++ trim s ++ b
    /\ all_chars isspace a = true /\ all_chars isspace b = true.
Proof.
  unfold trim, ltrim, rtrim.
  destruct (erase_front_while_spec isspace s) as (Hs & Ha & _).
  destruct (pop_back_while_spec isspace (erase_front_while isspace s))
    as (b & Hl & Hb & _).
  exists (take_while isspace s), b.
  split; [now rewrite <- Hl|]. now split.
Qed.

Lemma trim_tight (s : string) : tight (trim s).
Proof.
  unfold trim, ltrim, rtrim.
  destruct (erase_front_while_spec isspace s) as (_ & _ & Hfront).
  destruct (pop_back_while_spec isspace (erase_front_while isspace s))
    as (b & Hl & _ & Hback).
  set (l := erase_front_while isspace s) in *.
  set (r := pop_back_while isspace l) in *.
  destruct Hback as [Hr|Hr]; [now left|].
  destruct r as [|c r'] eqn:Er; [now left|]. right. split; [|exact Hr].
  destruct Hfront as [Hl0|Hf]; [rewrite Hl in Hl0; discriminate|].
  rewrite Hl in Hf. exact Hf.
Qed.

(** X1: trimming removes white space at both ends and nothing else.  The
    line is the trimmed text between two runs of white space; the trimmed
    text is empty or starts and ends with a character that is not white
    space; trimming it again changes nothing. *)
Theorem trim_removes_surrounding_space (s : string) :
  exists a b,
    s = a ++ trim s ++ b
    /\ all_chars isspace a = true
    /\ all_chars isspace b = true
    /\ tight (trim s)
    /\ trim (trim s) = trim s.
Proof.
  destruct (trim_parts s) as (a & b & Hs & Ha & Hb).
  exists a, b. split; [exact Hs|]. split; [exact Ha|]. split; [exact Hb|].
  split; [apply trim_tight|]. apply trim_of_tight, trim_tight.
Qed.

Lemma all_chars_ext (p q : ascii -> bool) (s : string) :
  (forall c, p c = q c) -> all_chars p s = all_chars q s.
Proof.
  intros H. induction s as [|c s IH]; simpl; [reflexivity|].
  now rewrite H, IH.
Qed.

Lemma all_chars_back (p : ascii -> bool) (s : string) :
  s <> EmptyString -> all_chars p s = true -> p (back s) = true.
Proof.
  intros Hne Hall. rewrite (pop_back_snoc s Hne) in Hall.
  rewrite all_chars_append in Hall. apply andb_prop in Hall as [_ H].
  simpl in H. now rewrite andb_true_r in H.
Qed.

Lemma newline_or_space (c : ascii) :
  (Ascii.eqb c "010" || Ascii.eqb c "013" || isspace c) = isspace c.
Proof. by_cases_on_char c. Qed.

(** X2: the path of smartctl is what [command -v smartctl] prints, without
    the white space at its end (the line feed).  It is empty, which is how
    the program concludes that smartctl is missing, exactly when the command
    prints nothing but white space. *)
Theorem find_smartctl_strips_line_end (shell : string -> string) :
  exists t,
    shell "command -v smartctl 2>/dev/null" = find_smartctl shell ++ t
    /\ all_chars isspace t = true
    /\ (find_smartctl shell = EmptyString
        \/ isspace (back (find_smartctl shell)) = false)
    /\ (find_smartctl shell = EmptyString
        <-> all_chars isspace (shell "command -v smartctl 2>/dev/null") = true).
Proof.
  unfold find_smartctl, exec_capture.
  set (out := shell "command -v smartctl 2>/dev/null").
  set (p := fun c => Ascii.eqb c "010" || Ascii.eqb c "013" || isspace c).
  assert (Hp : forall c, p c = isspace c) by (intros c; apply newline_or_space).
  destruct out as [|c out'] eqn:Hout.
  { exists EmptyString. simpl. repeat split; auto. }
  rewrite <- Hout. replace (empty out) with false by (rewrite Hout; reflexivity).
  cbn [negb]. clear Hout c out'.
  destruct (pop_back_while_spec p out) as (t & Ht & Hall & Hend).
  rewrite (all_chars_ext p isspace t Hp) in Hall.
  rewrite Hp in Hend.
  exists t. split; [exact Ht|]. split; [exact Hall|]. split; [exact Hend|].
  split.
  - intros Hr. rewrite Ht, Hr. exact Hall.
  - intros Hws. destruct Hend as [Hr|Hr]; [exact Hr|].
    destruct (pop_back_while p out) as [|d r] eqn:Er; [reflexivity|].
    rewrite Ht, all_chars_append in Hws. apply andb_prop in Hws as [Hws _].
    apply all_chars_back in Hws; [congruence | discriminate].
Qed.

(* ================================================================== *)
(** ** Escaping *)
(* ================================================================== *)

Lemma json_escape_append (a b : string) :
  json_escape (a ++ b) = json_escape a ++ json_escape b.
Proof.
  induction a as [|c a IH]; [reflexivity|].
  cbn [append json_escape]. now rewrite IH, append_assoc.
Qed.

Lemma json_escape_cons (c : ascii) (s : string) :
  json_escape (String c s) = json_escape (String c EmptyString) ++ json_escape s.
Proof. apply (json_escape_append (String c EmptyString) s). Qed.

Lemma json_unescape_char (c : ascii) (r : string) :
  json_unescape (json_escape (String c EmptyString) ++ r) =
  option_map (String c) (json_unescape r).
Proof.
  destruct c as [[] [] [] [] [] [] [] []]; reflexivity.
Qed.

(** X3: escaping loses nothing.  Read back as the body of a JSON string,
    the escaped text is the original text, byte for byte; so two texts with
    the same escaped form are the same text. *)
Theorem json_escape_round_trip (s : string) :
  json_unescape (json_escape s) = Some s
  /\ (forall s', json_escape s' = json_escape s -> s' = s).
Proof.
  assert (Hrt : forall x, json_unescape (json_escape x) = Some x).
  { induction x as [|c x IH]; [reflexivity|].
    rewrite json_escape_cons, json_unescape_char, IH. reflexivity. }
  split; [apply Hrt|].
  intros s' He. pose proof (Hrt s') as H1. rewrite He, Hrt in H1.
  now injection H1.
Qed.


(** X4: the escaped text holds no control character below 0x20, whatever
    the text: each one is written as an escape. *)
Theorem json_escape_no_control_character (s : string) :
  all_chars (fun x => 32 <=? code x) (json_escape s) = true.
Proof.
  induction s as [|c s IH]; [reflexivity|].
  rewrite json_escape_cons, all_chars_append, IH, andb_true_r.
  clear. destruct c as [[] [] [] [] [] [] [] []]; reflexivity.
Qed.

(** X5: a text without double quote, backslash and control character is
    its own escaped form; bytes from 0x80 on, those of UTF-8 sequences, are
    among the characters copied. *)
Theorem json_escape_plain_text (s : string) :
  all_chars plain_char s = true -> json_escape s = s.
Proof.
  induction s as [|c s IH]; [reflexivity|]. simpl all_chars.
  intros H. apply andb_prop in H as [Hc Hs].
  rewrite json_escape_cons, (IH Hs).
  replace (json_escape (String c EmptyString)) with (String c EmptyString);
    [reflexivity|].
  revert Hc. clear.
  destruct c as [[] [] [] [] [] [] [] []]; vm_compute; congruence.
Qed.

Lemma json_escape_plain_text_example :
  all_chars plain_char "Samsung SSD 980 1TB" = true
  /\ json_escape "Samsung SSD 980 1TB" = "Samsung SSD 980 1TB".
Proof.
  split; [reflexivity|]. now apply json_escape_plain_text.
Defined.

(* ================================================================== *)
(** ** Lines and tokens *)
(* ================================================================== *)

Lemma concat_empty_cons (x : string) (xs : list string) :
  String.concat EmptyString (x :: xs) = x ++ String.concat EmptyString xs.
Proof.
  destruct xs; simpl; [now rewrite append_empty_r | reflexivity].
Qed.

Lemma unlines_cons (l : string) (ls : list string) :
  unlines (l :: ls) = l ++ nl ++ unlines ls.
Proof.
  unfold unlines. cbn [List.map]. rewrite concat_empty_cons.
  now rewrite append_assoc.
Qed.

Lemma getlines_aux_line (l : string) :
  all_chars (is_not "010") l = true ->
  forall cur rest,
    getlines_aux cur (l ++ nl ++ rest) = (cur ++ l) :: getlines_aux EmptyString rest.
Proof.
  induction l as [|c l IH]; intros Hl cur rest.
  - simpl. now rewrite append_empty_r.
  - simpl in Hl. apply andb_prop in Hl as [Hc Hl].
    unfold is_not in Hc. apply negb_true_iff in Hc.
    cbn [append getlines_aux]. rewrite Hc. rewrite (IH Hl).
    now rewrite append_assoc.
Qed.

(** Reading line by line the text made of lines gives the lines back. *)
Lemma getlines_unlines (ls : list string) :
  forallb (all_chars (is_not "010")) ls = true ->
  getlines (unlines ls) = ls.
Proof.
  unfold getlines. induction ls as [|l ls IH]; intros H; [reflexivity|].
  simpl in H. apply andb_prop in H as [Hl Hls].
  rewrite unlines_cons, (getlines_aux_line l Hl). simpl append.
  now rewrite (IH Hls).
Qed.

Lemma until_space_spec (s : string) :
  all_chars not_space (until_space s) = true.
Proof.
  induction s as [|c s IH]; simpl; [reflexivity|].
  destruct (isspace c) eqn:Hc; simpl; [reflexivity|].
  unfold not_space at 1. now rewrite Hc.
Qed.

Lemma first_token_entry (d rest : string) :
  negb (empty d) = true -> all_chars not_space d = true ->
  first_token (d ++ " " ++ rest) = d.
Proof.
  intros Hne Hd. unfold first_token.
  assert (Hskip : skip_space (d ++ " " ++ rest) = d ++ " " ++ rest).
  { destruct d as [|c d]; [discriminate|]. simpl in *.
    apply andb_prop in Hd as [Hc _]. unfold not_space in Hc.
    apply negb_true_iff in Hc. now rewrite Hc. }
  rewrite Hskip. clear Hskip Hne.
  induction d as [|c d IH]; [reflexivity|].
  simpl in *. apply andb_prop in Hd as [Hc Hd]. unfold not_space in Hc.
  apply negb_true_iff in Hc. rewrite Hc. now rewrite IH.
Qed.

Lemma list_devices_fold (lines : list string) :
  forall devs,
    fold_left
      (fun devs line =>
         if empty line then devs
         else
           let token := first_token line in
           if negb (empty token) then (devs ++ [token])%list else devs)
      lines devs =
    (devs ++ filter (fun t => negb (empty t)) (List.map first_token lines))%list.
Proof.
  induction lines as [|l lines IH]; intros devs; simpl.
  - now rewrite app_nil_r.
  - rewrite IH. destruct l as [|c l]; [reflexivity|]. cbn [empty].
    cbv zeta. destruct (negb (empty (first_token (String c l))));
      [now rewrite <- app_assoc | reflexivity].
Qed.

(** X6: the devices listed are the first tokens of the lines that
    [smartctl --scan] prints, in the order of the lines; a line of white
    space gives none; no device is empty or holds white space. *)
Theorem list_devices_first_tokens (shell : string -> string) (smartctl : string) :
  list_devices shell smartctl =
    filter (fun t => negb (empty t))
      (List.map first_token (getlines (shell (smartctl ++ " --scan"))))
  /\ Forall (fun d => d <> EmptyString /\ all_chars not_space d = true)
       (list_devices shell smartctl).
Proof.
  assert (H : list_devices shell smartctl =
              filter (fun t => negb (empty t))
                (List.map first_token (getlines (shell (smartctl ++ " --scan"))))).
  { unfold list_devices, exec_capture. now rewrite list_devices_fold. }
  split; [exact H|]. rewrite H. apply Forall_forall. intros d Hd.
  apply filter_In in Hd as [Hin Hne]. apply in_map_iff in Hin as (line & <- & _).
  split.
  - intros E. rewrite E in Hne. discriminate.
  - apply until_space_spec.
Qed.

(** X7: on the output [smartctl --scan] gives, one line per device with
    the device name first, the list is the list of the names. *)
Theorem list_devices_of_scan_output
    (shell : string -> string) (smartctl : string)
    (entries : list (string * string)) :
  forallb well_formed_entry entries = true ->
  shell (smartctl ++ " --scan") = unlines (List.map scan_entry entries) ->
  list_devices shell smartctl = List.map fst entries.
Proof.
  intros Hwf Hout. unfold list_devices, exec_capture.
  rewrite list_devices_fold, Hout. cbn [List.app]. clear Hout.
  rewrite getlines_unlines.
  - induction entries as [|[d rest] entries IH]; [reflexivity|].
    simpl in Hwf. apply andb_prop in Hwf as [He Hwf].
    unfold well_formed_entry in He. cbn [fst snd] in He.
    apply andb_prop in He as [He _]. apply andb_prop in He as [Hne Hd].
    cbn [List.map filter].
    change (scan_entry (d, rest)) with (d ++ " " ++ rest).
    rewrite (first_token_entry d rest Hne Hd), Hne. cbn [fst].
    now rewrite (IH Hwf).
  - induction entries as [|[d rest] entries IH]; [reflexivity|].
    simpl in Hwf. apply andb_prop in Hwf as [He Hwf].
    unfold well_formed_entry in He. cbn [fst snd] in He.
    apply andb_prop in He as [He Hrest]. apply andb_prop in He as [_ Hd].
    cbn [List.map forallb]. apply andb_true_intro. split; [|now apply IH].
    change (scan_entry (d, rest)) with (d ++ " " ++ rest).
    rewrite !all_chars_append, Hrest, andb_true_r.
    clear - Hd. induction d as [|c d IH]; [reflexivity|].
    simpl in *. apply andb_prop in Hd as [Hc Hd]. rewrite (IH Hd), andb_true_r.
    revert Hc. clear. by_cases_on_char c.
Qed.

Lemma list_devices_two_devices :
  let entries := [("/dev/sda", "-d scsi"); ("/dev/nvme0", "-d nvme # /dev/nvme0, NVMe device")] in
  let shell := fun cmd : string =>
    if String.eqb cmd "/usr/sbin/smartctl --scan"
    then unlines (List.map scan_entry entries) else EmptyString in
  list_devices shell "/usr/sbin/smartctl" = ["/dev/sda"; "/dev/nvme0"].
Proof.
  intros entries shell.
  exact (list_devices_of_scan_output shell "/usr/sbin/smartctl" entries
           eq_refl eq_refl).
Defined.

(* ================================================================== *)
(** ** The options *)
(* ================================================================== *)

Lemma device_values_flag (a : string) (rest : list string) :
  String.eqb a "--device" = false ->
  device_values (a :: rest) = device_values rest.
Proof.
  intros Ha. simpl. rewrite Ha. now destruct rest.
Qed.

Lemma last_cons {A : Type} (v d : A) (l : list A) : last (v :: l) d = last l v.
Proof.
  revert v d. induction l as [|x l IH]; intros v d; [reflexivity|].
  change (last (v :: x :: l) d) with (last (x :: l) d).
  now rewrite !IH.
Qed.

Lemma has_option_cons (flag a : string) (rest : list string) :
  String.eqb a "--device" = false ->
  has_option flag (a :: rest) = String.eqb a flag || has_option flag rest.
Proof.
  intros Ha. unfold has_option. now rewrite option_tokens_flag.
Qed.

Lemma has_option_device (flag v : string) (rest : list string) :
  String.eqb "--device" flag = false ->
  has_option flag ("--device" :: v :: rest) = has_option flag rest.
Proof.
  intros H. unfold has_option.
  change (option_tokens ("--device" :: v :: rest))
    with ("--device" :: option_tokens rest).
  cbn [existsb]. now rewrite H.
Qed.

Lemma device_values_device (v : string) (rest : list string) :
  device_values ("--device" :: v :: rest) = v :: device_values rest.
Proof. reflexivity. Qed.

(** The argument loop, from any state of the options: it stops on a help
    request; otherwise each flag met is set, and the device is the value of
    the last [--device] that has one. *)
Lemma scan_args_options (n : nat) :
  forall args o,
    (List.length args <= n)%nat ->
    scan_args args o =
    if help_requested args then None
    else Some (mkOptions (list_mode o || has_option "--list" args)
                         (last (device_values args) (device o))
                         (json_out o || has_option "--json" args)
                         (include_raw o || has_option "--include-raw" args)).
Proof.
  unfold help_requested.
  induction n as [|n IH]; intros args o Hlen.
  - destruct args; [|simpl in Hlen; lia]. destruct o. simpl.
    now rewrite !orb_false_r.
  - destruct args as [|a rest].
    { destruct o. simpl. now rewrite !orb_false_r. }
    simpl in Hlen. cbn [scan_args].
    destruct (String.eqb a "--list") eqn:E1.
    { apply String.eqb_eq in E1. subst a.
      rewrite IH by lia. rewrite !has_option_cons by reflexivity.
      rewrite device_values_flag by reflexivity. cbn [list_mode device json_out include_raw].
      simpl. now rewrite orb_true_r. }
    destruct (String.eqb a "--json") eqn:E2.
    { apply String.eqb_eq in E2. subst a.
      rewrite IH by lia. rewrite !has_option_cons by reflexivity.
      rewrite device_values_flag by reflexivity. cbn [list_mode device json_out include_raw].
      simpl. now rewrite orb_true_r. }
    destruct (String.eqb a "--include-raw") eqn:E3.
    { apply String.eqb_eq in E3. subst a.
      rewrite IH by lia. rewrite !has_option_cons by reflexivity.
      rewrite device_values_flag by reflexivity. cbn [list_mode device json_out include_raw].
      simpl. now rewrite orb_true_r. }
    destruct rest as [|v rest'].
    + assert (Hd : device_values [a] = []) by reflexivity.
      unfold has_option. cbn [option_tokens existsb]. rewrite E1, E2, E3, Hd.
      cbn [last orb]. rewrite !orb_false_r.
      destruct (String.eqb a "-h" || String.eqb a "--help"); [reflexivity|].
      now destruct o.
    + destruct (String.eqb a "--device") eqn:E4.
      * apply String.eqb_eq in E4. subst a.
        rewrite IH by (simpl in Hlen; lia).
        rewrite !has_option_device by reflexivity.
        rewrite device_values_device, last_cons.
        reflexivity.
      * rewrite (has_option_cons "-h" a _ E4), (has_option_cons "--help" a _ E4),
          (has_option_cons "--list" a _ E4), (has_option_cons "--json" a _ E4),
          (has_option_cons "--include-raw" a _ E4).
        rewrite device_values_flag by exact E4. rewrite E1, E2, E3.
        cbn [orb].
        destruct (String.eqb a "-h") eqn:E5; [reflexivity|].
        destruct (String.eqb a "--help") eqn:E6;
          [cbn [orb]; now rewrite orb_true_r|].
        cbn [orb]. now rewrite IH by lia.
Qed.

(** X8: what the command line selects.  A help request among the options
    ends the scan; otherwise the flags [--list], [--json], [--include-raw]
    are set when they occur, in any order and any number of times, and the
    device is the value of the last [--device] that is followed by one, or
    empty: a [--device] at the end of the line is ignored. *)
Theorem command_line_options (args : list string) :
  scan_args args no_options =
  if help_requested args then None else Some (options_of args).
Proof.
  rewrite (scan_args_options (List.length args) args no_options (le_n _)).
  reflexivity.
Qed.

(** X9: in list mode the report of a device is never asked for.  Without
    help request and with [--list] among the options, the run depends on
    the host through [command -v smartctl] and [smartctl --scan] only, and
    on no [--device]: it prints the devices, as lines or as JSON, with
    status 0, unless smartctl is missing. *)
Theorem list_mode_ignores_device (shell : string -> string) (args : list string) :
  help_requested args = false ->
  has_option "--list" args = true ->
  main shell args =
  Ok (if empty (find_smartctl shell)
      then mkRun 2 EmptyString
                 ("smartctl not found. Install smartmontools." ++ nl)
      else mkRun 0
             (if has_option "--json" args
              then devices_json (list_devices shell (find_smartctl shell))
              else String.concat EmptyString
                     (List.map (fun d => d ++ nl)
                        (list_devices shell (find_smartctl shell))))
             EmptyString).
Proof.
  intros Hhelp Hlist. unfold main.
  rewrite (scan_args_options (List.length args) args no_options (le_n _)).
  rewrite Hhelp. cbn [no_options list_mode json_out device include_raw orb].
  rewrite Hlist. now destruct (empty (find_smartctl shell)).
Qed.

Lemma list_mode_with_device :
  let shell := fun cmd : string =>
    if String.eqb cmd "command -v smartctl 2>/dev/null"
    then "/usr/sbin/smartctl" ++ nl
    else if String.eqb cmd "/usr/sbin/smartctl --scan"
    then unlines ["/dev/sda -d scsi"]
    else "not read" in
  main shell ["--device"; "/dev/nvme0"; "--list"] =
  Ok (mkRun 0 (unlines ["/dev/sda"]) EmptyString).
Proof.
  intros shell.
  exact (list_mode_ignores_device shell ["--device"; "/dev/nvme0"; "--list"]
           eq_refl eq_refl).
Defined.

(* ================================================================== *)
(** ** The section machine *)
(* ================================================================== *)

Lemma starts_with_true (p t : string) :
  starts_with t p = true -> exists r, t = p ++ r.
Proof.
  unfold starts_with. revert t. induction p as [|c p IH]; intros t H.
  - now exists t.
  - destruct t as [|d t]; [discriminate|]. simpl in H.
    destruct (ascii_dec c d) as [<-|]; [|discriminate].
    destruct (IH t H) as [r ->]. now exists r.
Qed.

Lemma marker_is_not_identity (t : string) :
  is_marker t = true -> empty t = false /\ identity_key t = None.
Proof.
  intros H. apply starts_with_true in H as [r ->]. split; reflexivity.
Qed.

Lemma terminator_is_plain (t : string) :
  is_terminator t = true ->
  empty t = false /\ identity_key t = None /\ is_marker t = false.
Proof.
  unfold is_terminator. intros H.
  apply orb_prop in H as [H|H]; [apply orb_prop in H as [H|H]|];
    apply starts_with_true in H as [r ->]; repeat split.
Qed.

(** The loop outside the NVMe block: a line that is not the marker leaves
    the collected lines and the state of the machine as they are. *)
Lemma scan_line_outside (st : Scan) (line : string) :
  in_nvme st = false ->
  is_marker (rtrim (ltrim line)) = false ->
  exists st',
    scan_line st line = Ok st'
    /\ in_nvme st' = false /\ nvme_lines st' = nvme_lines st.
Proof.
  unfold scan_line, is_marker. set (t := rtrim (ltrim line)).
  intros Hst Hm. destruct (header_value_ok t) as [v Hv].
  destruct (empty t); [now exists st|].
  destruct (starts_with t "Device Model:" || starts_with t "Model Number:").
  { rewrite Hv. eexists. split; [reflexivity|]. now split. }
  destruct (starts_with t "Serial Number:").
  { rewrite Hv. eexists. split; [reflexivity|]. now split. }
  destruct (starts_with t "Firmware Version:").
  { rewrite Hv. eexists. split; [reflexivity|]. now split. }
  rewrite Hm, Hst. now exists st.
Qed.

Lemma scan_lines_outside (lines : list string) :
  forallb (fun l => negb (is_marker (rtrim (ltrim l)))) lines = true ->
  forall st, in_nvme st = false ->
  exists st',
    scan_lines lines st = Ok st'
    /\ in_nvme st' = false /\ nvme_lines st' = nvme_lines st.
Proof.
  induction lines as [|l lines IH]; intros Hall st Hst; simpl.
  - now exists st.
  - simpl in Hall. apply andb_prop in Hall as [Hl Hall].
    apply negb_true_iff in Hl.
    destruct (scan_line_outside st l Hst Hl) as (st1 & -> & H1 & H2).
    cbn [bind]. destruct (IH Hall st1 H1) as (st' & Hrun & H3 & H4).
    exists st'. split; [exact Hrun|]. split; [exact H3 | congruence].
Qed.

Lemma scan_line_marker (st : Scan) (line : string) :
  is_marker (rtrim (ltrim line)) = true ->
  scan_line st line = Ok (mkScan (kv st) (nvme_lines st) true).
Proof.
  intros H. unfold scan_line.
  apply starts_with_true in H as [r Hr]. rewrite Hr.
  change (empty ("SMART/Health Information" ++ r)) with false. cbv iota.
  change (starts_with ("SMART/Health Information" ++ r) "Device Model:") with false.
  change (starts_with ("SMART/Health Information" ++ r) "Model Number:") with false.
  change (starts_with ("SMART/Health Information" ++ r) "Serial Number:") with false.
  change (starts_with ("SMART/Health Information" ++ r) "Firmware Version:") with false.
  cbn [orb]. cbv iota. now rewrite starts_with_append.
Qed.

Lemma identity_key_none (t : string) :
  identity_key t = None ->
  (starts_with t "Device Model:" || starts_with t "Model Number:") = false
  /\ starts_with t "Serial Number:" = false
  /\ starts_with t "Firmware Version:" = false.
Proof.
  unfold identity_key.
  destruct (starts_with t "Device Model:" || starts_with t "Model Number:");
    [discriminate|].
  destruct (starts_with t "Serial Number:"); [discriminate|].
  destruct (starts_with t "Firmware Version:"); [discriminate|].
  auto.
Qed.

Lemma scan_line_terminator (st : Scan) (line : string) :
  in_nvme st = true ->
  is_terminator (rtrim (ltrim line)) = true ->
  scan_line st line = Ok (mkScan (kv st) (nvme_lines st) false).
Proof.
  intros Hst Ht. unfold scan_line.
  destruct (terminator_is_plain _ Ht) as (He & Hid & Hm).
  destruct (identity_key_none _ Hid) as (H1 & H2 & H3).
  unfold is_marker in Hm. unfold is_terminator in Ht.
  now rewrite He, H1, H2, H3, Hm, Hst, Ht.
Qed.

Lemma collectable_cases (t : string) :
  collectable t = true ->
  empty t = false /\ identity_key t = None /\ is_marker t = false
  /\ is_terminator t = false.
Proof.
  unfold collectable, is_identity. intros H.
  apply andb_prop in H as [H H4]. apply andb_prop in H as [H H3].
  apply andb_prop in H as [H1 H2].
  apply negb_true_iff in H1, H2, H3, H4.
  destruct (identity_key t); [discriminate|]. auto.
Qed.

Lemma scan_line_attribute (st : Scan) (line : string) :
  in_nvme st = true ->
  collectable (rtrim (ltrim line)) = true ->
  scan_line st line =
  Ok (mkScan (kv st) (nvme_lines st ++ [rtrim (ltrim line)])%list true).
Proof.
  intros Hst Hc. unfold scan_line.
  destruct (collectable_cases _ Hc) as (He & Hid & Hm & Ht).
  destruct (identity_key_none _ Hid) as (H1 & H2 & H3).
  unfold is_marker in Hm. unfold is_terminator in Ht.
  now rewrite He, H1, H2, H3, Hm, Hst, Ht.
Qed.

Lemma scan_lines_block (block : list string) :
  forallb (fun l => collectable (rtrim (ltrim l))) block = true ->
  forall st, in_nvme st = true ->
  scan_lines block st =
  Ok (mkScan (kv st)
        (nvme_lines st ++ List.map (fun l => rtrim (ltrim l)) block)%list true).
Proof.
  induction block as [|l block IH]; intros Hall st Hst; simpl.
  - rewrite app_nil_r. destruct st. simpl in Hst. now subst.
  - simpl in Hall. apply andb_prop in Hall as [Hl Hall].
    rewrite (scan_line_attribute st l Hst Hl). cbn [bind].
    rewrite (IH Hall) by reflexivity. cbn [kv nvme_lines].
    now rewrite <- app_assoc.
Qed.

(** X11: without a line that starts with [SMART/Health Information] no
    NVMe attribute is read: the NVMe map of the report is empty, whatever
    else the text holds. *)
Theorem no_marker_no_attribute (out : string) :
  forallb (fun l => negb (is_marker (rtrim (ltrim l)))) (getlines out) = true ->
  exists r, parse_report out = Ok r /\ nvme r = [].
Proof.
  intros H. unfold parse_report.
  destruct (scan_lines_outside (getlines out) H initial_scan eq_refl)
    as (st & Hrun & _ & Hnl).
  unfold initial_scan in Hrun. rewrite Hrun. cbn [bind].
  simpl in Hnl. rewrite Hnl. cbn [parse_nvme_section nvme_loop bind].
  eexists. split; reflexivity.
Qed.

Lemma no_marker_ata_report :
  exists r,
    parse_report
      (unlines ["Device Model:     ST2000DM008-2FR102";
                "Temperature: 42 Celsius";
                "=== START OF READ SMART DATA SECTION ==="]) = Ok r
    /\ nvme r = [].
Proof.
  apply no_marker_no_attribute. reflexivity.
Defined.

(** X12: the lines of one NVMe block.  After lines without marker, a
    marker line, lines that are kept (not empty, no identity prefix, no
    marker, no terminator), a terminator line and lines without marker, the
    lines collected for the NVMe parser are the kept lines, trimmed, in
    their order: nothing before the marker, nothing after the terminator. *)
Theorem block_lines_collected
    (pre block post : list string) (marker terminator : string) :
  forallb (fun l => negb (is_marker (rtrim (ltrim l)))) pre = true ->
  is_marker (rtrim (ltrim marker)) = true ->
  forallb (fun l => collectable (rtrim (ltrim l))) block = true ->
  is_terminator (rtrim (ltrim terminator)) = true ->
  forallb (fun l => negb (is_marker (rtrim (ltrim l)))) post = true ->
  exists st,
    scan_lines
      (List.app pre (marker :: List.app block (terminator :: post)))
      initial_scan = Ok st
    /\ nvme_lines st = List.map (fun l => rtrim (ltrim l)) block
    /\ in_nvme st = false.
Proof.
  intros Hpre Hm Hblock Ht Hpost.
  rewrite scan_lines_app.
  destruct (scan_lines_outside pre Hpre initial_scan eq_refl)
    as (st1 & -> & Hin1 & Hnl1).
  cbn [bind scan_lines]. rewrite (scan_line_marker st1 marker Hm). cbn [bind].
  rewrite scan_lines_app.
  rewrite (scan_lines_block block Hblock
             (mkScan (kv st1) (nvme_lines st1) true) eq_refl).
  cbn [bind scan_lines kv nvme_lines].
  match goal with
  | |- context [scan_line ?s terminator] =>
      rewrite (scan_line_terminator s terminator eq_refl Ht)
  end.
  cbn [bind kv nvme_lines].
  match goal with
  | |- context [scan_lines post ?s] =>
      destruct (scan_lines_outside post Hpost s eq_refl) as (st & Hrun & Hin & Hnl)
  end.
  exists st. split; [exact Hrun|]. split; [|exact Hin].
  rewrite Hnl. cbn [nvme_lines]. rewrite Hnl1. reflexivity.
Qed.

Lemma block_lines_of_nvme_report :
  exists st,
    scan_lines
      ["Model Number:  Samsung SSD 980 1TB";
       "Temperature: not yet";
       "SMART/Health Information (NVMe Log 0x02)";
       "  Temperature:                        42 Celsius  ";
       "Available Spare:                    100%";
       "Error Information (NVMe Log 0x01, 16 of 64 entries)";
       "Num   ErrCount  SQId: 0"]
      initial_scan = Ok st
    /\ nvme_lines st =
       ["Temperature:                        42 Celsius";
        "Available Spare:                    100%"]
    /\ in_nvme st = false.
Proof.
  exact (block_lines_collected
           ["Model Number:  Samsung SSD 980 1TB"; "Temperature: not yet"]
           ["  Temperature:                        42 Celsius  ";
            "Available Spare:                    100%"]
           ["Num   ErrCount  SQId: 0"]
           "SMART/Health Information (NVMe Log 0x02)"
           "Error Information (NVMe Log 0x01, 16 of 64 entries)"
           eq_refl eq_refl eq_refl eq_refl eq_refl).
Defined.

Lemma scan_line_collects (st : Scan) (line : string) :
  exists st',
    scan_line st line = Ok st'
    /\ (nvme_lines st' = nvme_lines st
        \/ (nvme_lines st' = (nvme_lines st ++ [rtrim (ltrim line)])%list
            /\ collectable (rtrim (ltrim line)) = true)).
Proof.
  unfold scan_line, collectable, is_identity, identity_key, is_marker,
    is_terminator.
  set (t := rtrim (ltrim line)).
  destruct (header_value_ok t) as [v Hv].
  destruct (empty t); [exists st; split; [reflexivity | now left]|].
  destruct (starts_with t "Device Model:" || starts_with t "Model Number:").
  { rewrite Hv. eexists. split; [reflexivity | now left]. }
  destruct (starts_with t "Serial Number:").
  { rewrite Hv. eexists. split; [reflexivity | now left]. }
  destruct (starts_with t "Firmware Version:").
  { rewrite Hv. eexists. split; [reflexivity | now left]. }
  destruct (starts_with t "SMART/Health Information");
    [eexists; split; [reflexivity | now left]|].
  destruct (in_nvme st); [|exists st; split; [reflexivity | now left]].
  destruct (starts_with t "Error Information" || starts_with t "Self-test Log"
            || starts_with t "===");
    eexists; (split; [reflexivity|]); [now left | right; now split].
Qed.

(** X13: what the loop never hands to the NVMe parser.  Every line
    collected is the trimmed text of a line of the report, is not empty and
    is neither an identity line, nor a marker line, nor a terminator line. *)
Theorem collected_lines_are_attribute_lines (lines : list string) :
  exists st,
    scan_lines lines initial_scan = Ok st
    /\ Forall (fun t => collectable t = true
                        /\ exists l, In l lines /\ t = rtrim (ltrim l))
         (nvme_lines st).
Proof.
  assert (H : forall ls st,
             exists st',
               scan_lines ls st = Ok st'
               /\ forall P : string -> Prop,
                    Forall P (nvme_lines st) ->
                    (forall l, In l ls -> collectable (rtrim (ltrim l)) = true ->
                               P (rtrim (ltrim l))) ->
                    Forall P (nvme_lines st')).
  { induction ls as [|l ls IH]; intros st; simpl.
    - exists st. split; [reflexivity | auto].
    - destruct (scan_line_collects st l) as (st1 & -> & Hc). cbn [bind].
      destruct (IH st1) as (st' & Hrun & Hinv).
      exists st'. split; [exact Hrun|]. intros P HP Hl.
      apply Hinv; [|intros l' Hin; apply Hl; now right].
      destruct Hc as [->|[-> Hcol]]; [exact HP|].
      apply Forall_app. split; [exact HP|].
      constructor; [|constructor]. apply Hl; [now left | exact Hcol]. }
  destruct (H lines initial_scan) as (st & Hrun & Hinv).
  exists st. split; [exact Hrun|].
  apply Hinv; [constructor|]. intros l Hin Hcol. split; [exact Hcol|].
  now exists l.
Qed.

(* ================================================================== *)
(** ** The NVMe map *)
(* ================================================================== *)

Lemma raw_field_of_value (val : string) : raw (field_of_value val) = val.
Proof.
  rewrite field_of_value_scan.
  destruct (scan_number val) as [[tok rest]|]; [|reflexivity].
  cbv zeta. destruct (token_value tok) as [v|]; [destruct (fits_int64 v)|];
    reflexivity.
Qed.

Lemma normalize_normalized (k : string) : normalized (normalize k) = true.
Proof.
  unfold normalized, normalize. rewrite transform_compose.
  apply all_chars_transform. intros c.
  destruct (normalize_char_twice c) as (_ & Hu & Hs & _).
  cbv zeta in Hu, Hs. now rewrite Hu, Hs.
Qed.

Lemma map_set_Forall {V : Type} (P : string * V -> Prop)
    (k : string) (v : V) (m : map V) :
  Forall P m -> P (k, v) -> Forall P (map_set k v m).
Proof.
  intros Hm Hk. induction m as [|[k' v'] m IH]; simpl.
  - now constructor.
  - apply Forall_inv in Hm as Hhd. apply Forall_inv_tail in Hm as Htl.
    destruct (String.compare k k').
    + now constructor.
    + constructor; [exact Hk | now constructor].
    + constructor; [exact Hhd | now apply IH].
Qed.

Lemma nvme_line_sound (out out' : map Field) (l : string) :
  Forall sound_entry out ->
  nvme_line out l = Ok out' ->
  Forall sound_entry out'.
Proof.
  unfold nvme_line. intros Hout.
  destruct (find l ":" =? npos); [now intros [= <-]|].
  destruct (substr_n l 0 (find l ":")) as [key|]; [|discriminate].
  destruct (substr l (size_add (find l ":") 1)) as [val|]; [|discriminate].
  cbn [bind]. intros [= <-]. apply map_set_Forall; [exact Hout|].
  unfold sound_entry. cbn [fst snd]. rewrite raw_field_of_value.
  split; [apply normalize_normalized|]. split; [reflexivity | apply trim_tight].
Qed.

Lemma nvme_loop_sound (lines : list string) :
  forall out m,
    Forall sound_entry out ->
    nvme_loop lines out = Ok m ->
    Forall sound_entry m.
Proof.
  induction lines as [|l lines IH]; intros out m Hout Hrun; simpl in Hrun.
  - now injection Hrun as <-.
  - destruct (nvme_line out l) as [out'|] eqn:Hl; [|discriminate].
    cbn [bind] in Hrun. apply (IH out' m); [|exact Hrun].
    exact (nvme_line_sound out out' l Hout Hl).
Qed.

(** X14: what holds of the NVMe map, whatever the lines.  The keys are
    strictly increasing, so no key occurs twice; each key is normalised
    (no uppercase letter, no space); the raw text of each entry neither
    starts nor ends with white space; and value and unit of an entry are
    those the decomposition gives for its raw text. *)
Theorem nvme_map_invariant (lines : list string) :
  exists m,
    parse_nvme_section lines = Ok m
    /\ StronglySorted key_lt (keys m)
    /\ Forall sound_entry m.
Proof.
  unfold parse_nvme_section.
  destruct (nvme_loop_ok lines []) as [m Hm]. exists m.
  split; [exact Hm|]. split.
  - apply (nvme_loop_sorted lines [] m); [constructor | exact Hm].
  - apply (nvme_loop_sound lines [] m); [constructor | exact Hm].
Qed.

(** X15: the last line wins.  A line [key:value] gives its key the field
    of its trimmed value, over any entry that earlier lines made for the
    same normalised key (keys that differ by case or by space against
    underscore are one key), unless a later line assigns the key again. *)
Theorem nvme_last_line_wins (before after : list string) (k v : string) :
  all_chars (is_not ":") k = true ->
  size (k ++ ":" ++ v) < npos ->
  forallb (fun l => negb (assigns (normalize (trim k)) l)) after = true ->
  exists m,
    parse_nvme_section (List.app before ((k ++ ":" ++ v) :: after)) = Ok m
    /\ map_find (normalize (trim k)) m = Some (field_of_value (trim v)).
Proof.
  intros Hk Hsize Hafter. unfold parse_nvme_section. rewrite nvme_loop_app.
  destruct (nvme_loop_ok before []) as [m0 ->]. cbn [bind nvme_loop].
  rewrite (nvme_line_key_value m0 k v Hk Hsize). cbn [bind].
  destruct (nvme_loop_keep (normalize (trim k)) after Hafter
              (map_set (normalize (trim k)) (field_of_value (trim v)) m0))
    as (m & Hm & Hfind).
  exists m. split; [exact Hm|].
  rewrite Hfind. apply map_find_set_same.
Qed.

Lemma nvme_last_line_wins_on_same_key :
  exists m,
    parse_nvme_section
      ["Temperature Sensor 1: 38 Celsius"; "temperature_sensor_1 : 45 Celsius";
       "Available Spare: 100%"] = Ok m
    /\ map_find "temperature_sensor_1" m =
       Some (mkField "45 Celsius" "Celsius" true 45).
Proof.
  exact (nvme_last_line_wins
           ["Temperature Sensor 1: 38 Celsius"] ["Available Spare: 100%"]
           "temperature_sensor_1 " " 45 Celsius" eq_refl eq_refl eq_refl).
Defined.

Lemma find_without (c : ascii) (l : string) :
  all_chars (is_not c) l = true -> find l c = npos.
Proof.
  unfold find. generalize 0. induction l as [|d l IH]; intros i H; simpl.
  - reflexivity.
  - simpl in H. apply andb_prop in H as [Hd Hl].
    unfold is_not in Hd. apply negb_true_iff in Hd. rewrite Hd. now apply IH.
Qed.

(** X16: a line without colon leaves no trace: the map is the one the
    lines that hold a colon give. *)
Theorem lines_without_colon_are_skipped (lines : list string) :
  parse_nvme_section lines = parse_nvme_section (filter has_colon lines).
Proof.
  unfold parse_nvme_section. generalize (@nil (string * Field)) as out.
  induction lines as [|l lines IH]; intros out; [reflexivity|].
  cbn [filter]. unfold has_colon at 1.
  destruct (all_chars (is_not ":") l) eqn:Hl; cbn [negb nvme_loop].
  - unfold nvme_line at 1. rewrite (find_without ":" l Hl).
    change (npos =? npos) with true. cbn [bind]. apply IH.
  - destruct (nvme_line out l); cbn [bind]; [apply IH | reflexivity].
Qed.

(* ================================================================== *)
(** ** The field of a value *)
(* ================================================================== *)

(** X17: without bracket in the value, the unit is the unit token: the
    run of letters, [%] and [.] that follows the leading number after
    optional white space; it is empty when there is no leading number or no
    such run. *)
Theorem unit_without_bracket (val : string) :
  all_chars (is_not "[") val = true ->
  unit (field_of_value val) =
  match scan_number val with
  | Some (_, rest) =>
      match scan_unit rest with
      | Some u => u
      | None => EmptyString
      end
  | None => EmptyString
  end.
Proof.
  intros H. rewrite field_of_value_scan, (bracket_search_none val H).
  destruct (scan_number val) as [[tok rest]|]; [|reflexivity].
  cbn [fst]. cbv zeta.
  destruct (token_value tok) as [v|]; [destruct (fits_int64 v)|]; reflexivity.
Qed.

Lemma unit_of_temperature :
  unit (field_of_value "42 Celsius") = "Celsius"
  /\ unit (field_of_value "100%") = "%"
  /\ unit (field_of_value "1,024") = EmptyString
  /\ unit (field_of_value "3.5 V") = ".".
Proof.
  split; [|split; [|split]].
  - exact (unit_without_bracket "42 Celsius" eq_refl).
  - exact (unit_without_bracket "100%" eq_refl).
  - exact (unit_without_bracket "1,024" eq_refl).
  - exact (unit_without_bracket "3.5 V" eq_refl).
Defined.

(* ================================================================== *)
(** ** Numbers written and read *)
(* ================================================================== *)

Lemma string_of_uint_digits (d : Decimal.uint) :
  all_chars isdigit (NilEmpty.string_of_uint d) = true.
Proof. induction d; simpl; auto. Qed.

Lemma string_of_pos (p : positive) :
  exists c s,
    NilZero.string_of_uint (Pos.to_uint p) = String c s
    /\ all_chars isdigit (String c s) = true
    /\ digits_value 0 (String c s) = Z.pos p.
Proof.
  pose proof (DecimalPos.Unsigned.to_uint_nonnil p) as Hnn.
  pose proof (DecimalPos.Unsigned.of_to p) as Hof.
  pose proof (string_of_uint_digits (Pos.to_uint p)) as Hd.
  pose proof (digits_value_uint (Pos.to_uint p)) as Hv.
  rewrite Hof in Hv.
  destruct (Pos.to_uint p) eqn:E; [congruence|..];
    (eexists _, _; split; [reflexivity|]; split; [exact Hd | exact Hv]).
Qed.

Lemma digit_is_digit_or_comma (c : ascii) :
  isdigit c = true ->
  digit_or_comma c = true /\ Ascii.eqb c "," = false /\ sign_char c = false
  /\ is_not "[" c = true.
Proof. by_cases_on_char c. Qed.

Lemma digits_run (s : string) :
  all_chars isdigit s = true ->
  take_while digit_or_comma s = s
  /\ drop_while digit_or_comma s = EmptyString
  /\ remove_char "," s = s
  /\ all_chars (is_not "[") s = true.
Proof.
  induction s as [|c s IH]; simpl; [auto|].
  intros H. apply andb_prop in H as [Hc Hs].
  destruct (digit_is_digit_or_comma c Hc) as (H1 & H2 & _ & H4).
  destruct (IH Hs) as (I1 & I2 & I3 & I4).
  rewrite H1, H2, H4, I1, I2, I3, I4. auto.
Qed.

(** The field of a decimal number, with or without minus sign. *)
Lemma field_of_decimal (neg : bool) (c : ascii) (s : string) :
  all_chars isdigit (String c s) = true ->
  let text := (if neg then "-" else EmptyString) ++ String c s in
  let v := if neg then - digits_value 0 (String c s)
           else digits_value 0 (String c s) in
  field_of_value text =
  if fits_int64 v then mkField text EmptyString true v
  else mkField text EmptyString false 0.
Proof.
  intros Hd text v.
  destruct (digits_run (String c s) Hd) as (Htake & Hdrop & Hrm & Hnb).
  assert (Hc : isdigit c = true) by (simpl in Hd; now apply andb_prop in Hd).
  destruct (digit_is_digit_or_comma c Hc) as (_ & _ & Hsign & _).
  assert (Hscan : scan_number text = Some (text, EmptyString)).
  { unfold scan_number, scan_signed, text. destruct neg.
    - change (drop_while isspace ("-" ++ String c s)) with ("-" ++ String c s).
      change (sign_char "-") with true. cbv iota beta.
      cbn [append]. change (sign_char "-") with true. cbv iota.
      rewrite Htake, Hdrop. reflexivity.
    - cbn [append drop_while]. rewrite (digit_not_space c Hc), Hsign.
      rewrite Htake, Hdrop. reflexivity. }
  assert (Htok : token_value text = Some v).
  { unfold token_value, text, v. destruct neg.
    - change (remove_char "," ("-" ++ String c s))
        with (String "-" (remove_char "," (String c s))).
      rewrite Hrm. reflexivity.
    - cbn [append]. rewrite Hrm, (digit_no_sign c s Hc). reflexivity. }
  assert (Hb : all_chars (is_not "[") text = true).
  { unfold text. destruct neg; [|exact Hnb].
    change (all_chars (is_not "[") ("-" ++ String c s))
      with (is_not "[" "-" && all_chars (is_not "[") (String c s)).
    now rewrite Hnb. }
  rewrite field_of_value_scan, Hscan, (bracket_search_none text Hb), Htok.
  cbn [fst]. cbv zeta. unfold scan_unit. cbn.
  destruct (fits_int64 v); reflexivity.
Qed.

(** X19: a value written is the value read.  The decimal text that the
    emitter writes for a number of a field is a value from which the parser
    reads the same number, with no unit. *)
Theorem written_value_reads_back (n : Z) :
  LLONG_MIN <= n <= LLONG_MAX ->
  field_of_value (string_of_Z n) = mkField (string_of_Z n) EmptyString true n.
Proof.
  intros Hn. unfold string_of_Z.
  assert (Hfit : fits_int64 n = true)
    by (unfold fits_int64, LLONG_MIN, LLONG_MAX in *; lia).
  destruct n as [|p|p].
  - vm_compute. reflexivity.
  - cbn [Z.to_int NilZero.string_of_int].
    destruct (string_of_pos p) as (c & s & -> & Hd & Hv).
    pose proof (field_of_decimal false c s Hd) as H. cbv zeta in H.
    cbn [append] in H. rewrite Hv, Hfit in H. exact H.
  - cbn [Z.to_int NilZero.string_of_int].
    destruct (string_of_pos p) as (c & s & -> & Hd & Hv).
    pose proof (field_of_decimal true c s Hd) as H. cbv zeta in H.
    cbn [append] in H. rewrite Hv in H.
    change (- Z.pos p) with (Z.neg p) in H. rewrite Hfit in H. exact H.
Qed.

Lemma written_value_reads_back_at_bounds :
  field_of_value (string_of_Z (-9223372036854775808)) =
    mkField "-9223372036854775808" EmptyString true (-9223372036854775808)
  /\ field_of_value (string_of_Z 9223372036854775807) =
     mkField "9223372036854775807" EmptyString true 9223372036854775807.
Proof.
  split.
  - apply (written_value_reads_back (-9223372036854775808)).
    vm_compute. split; discriminate.
  - apply (written_value_reads_back 9223372036854775807).
    vm_compute. split; discriminate.
Defined.

(* ================================================================== *)
(** ** White space around lines and values *)
(* ================================================================== *)

Section TrimAppend.

Variable p : ascii -> bool.

Lemma pop_back_append_char (s : string) (c : ascii) :
  pop_back (s ++ String c EmptyString) = s.
Proof.
  induction s as [|d s IH]; [reflexivity|].
  cbn [append]. destruct s as [|e s]; [reflexivity|].
  change (pop_back (String d (String e s ++ String c EmptyString)))
    with (String d (pop_back (String e s ++ String c EmptyString))).
  now rewrite IH.
Qed.

Lemma pop_back_while_snoc (s : string) (c : ascii) :
  p c = true ->
  pop_back_while p (s ++ String c EmptyString) = pop_back_while p s.
Proof.
  intros Hc. unfold pop_back_while. rewrite length_append.
  replace (String.length s + String.length (String c EmptyString))%nat
    with (S (String.length s)) by (simpl; lia).
  cbn [pop_back_loop].
  replace (empty (s ++ String c EmptyString)) with false
    by (destruct s; reflexivity).
  rewrite back_append_char, Hc, pop_back_append_char. reflexivity.
Qed.

Lemma pop_back_while_append (s w : string) :
  all_chars p w = true -> pop_back_while p (s ++ w) = pop_back_while p s.
Proof.
  revert s. induction w as [|c w IH]; intros s Hw.
  - now rewrite append_empty_r.
  - simpl in Hw. apply andb_prop in Hw as [Hc Hw].
    replace (s ++ String c w) with ((s ++ String c EmptyString) ++ w)
      by (now rewrite append_assoc).
    rewrite (IH _ Hw). now apply pop_back_while_snoc.
Qed.

Lemma erase_front_while_append (s w : string) :
  erase_front_while p (s ++ w) =
  if all_chars p s then erase_front_while p w else erase_front_while p s ++ w.
Proof.
  induction s as [|c s IH]; [reflexivity|].
  cbn [append erase_front_while all_chars].
  destruct (p c); [exact IH | reflexivity].
Qed.

Lemma erase_front_while_all (s : string) :
  all_chars p s = true -> erase_front_while p s = EmptyString.
Proof.
  induction s as [|c s IH]; [reflexivity|]. simpl.
  intros H. apply andb_prop in H as [Hc Hs]. rewrite Hc. now apply IH.
Qed.

Lemma back_append (a m : string) :
  m <> EmptyString -> back (a ++ m) = back m.
Proof.
  intros Hm. induction a as [|c a IH]; [reflexivity|].
  cbn [append]. rewrite <- IH.
  destruct (a ++ m) as [|d x] eqn:E; [|reflexivity].
  destruct a; simpl in E; congruence.
Qed.

End TrimAppend.

(** White space after a line does not change its trimmed text. *)
Lemma trim_append_space (l w : string) :
  all_chars isspace w = true -> trim (l ++ w) = trim l.
Proof.
  intros Hw. unfold trim, ltrim, rtrim. rewrite erase_front_while_append.
  destruct (all_chars isspace l) eqn:Hl.
  - rewrite (erase_front_while_all isspace w Hw),
      (erase_front_while_all isspace l Hl). reflexivity.
  - now apply pop_back_while_append.
Qed.

(** X20: the two orders of trimming agree.  The identity values are
    trimmed at the back first and the lines at the front first; both give
    the same text. *)
Theorem trim_orders_agree (s : string) : ltrim (rtrim s) = rtrim (ltrim s).
Proof.
  change (rtrim (ltrim s)) with (trim s).
  destruct (trim_parts s) as (a & b & Hs & Ha & Hb).
  pose proof (trim_tight s) as Ht. set (m := trim s) in *.
  rewrite Hs at 1. unfold ltrim, rtrim.
  rewrite <- append_assoc, (pop_back_while_append isspace (a ++ m) b Hb).
  assert (Hcases : m = EmptyString
                   \/ (m <> EmptyString /\ isspace (front m) = false
                       /\ isspace (back m) = false)).
  { destruct Ht as [Hm|[Hf Hback]]; [now left|].
    destruct m; [now left | right; repeat split; [discriminate|..]; assumption]. }
  destruct Hcases as [Hm|(Hne & Hf & Hback)].
  - rewrite Hm, append_empty_r.
    destruct (pop_back_while_spec isspace a) as (t & Hat & _ & Hend).
    destruct Hend as [Hr|Hr]; [now rewrite Hr|].
    destruct (pop_back_while isspace a) as [|c r] eqn:Er; [reflexivity|].
    rewrite Hat, all_chars_append in Ha. apply andb_prop in Ha as [Ha _].
    apply all_chars_back in Ha; [congruence | discriminate].
  - rewrite (pop_back_while_fixed isspace (a ++ m))
      by (right; now rewrite back_append).
    rewrite erase_front_while_append, Ha.
    destruct m as [|c m']; [congruence|]. simpl in Hf. simpl. now rewrite Hf.
Qed.

Lemma scan_line_trimmed (st : Scan) (l l' : string) :
  rtrim (ltrim l) = rtrim (ltrim l') -> scan_line st l = scan_line st l'.
Proof. unfold scan_line. now intros ->. Qed.

Lemma scan_lines_trimmed (ls : list string) (f : string -> string) :
  (forall l, rtrim (ltrim (f l)) = rtrim (ltrim l)) ->
  forall st, scan_lines (List.map f ls) st = scan_lines ls st.
Proof.
  intros Hf. induction ls as [|l ls IH]; intros st; [reflexivity|].
  cbn [List.map scan_lines]. rewrite (scan_line_trimmed st (f l) l (Hf l)).
  destruct (scan_line st l); cbn [bind]; [apply IH | reflexivity].
Qed.

(** X21: line ends of the form CR LF are harmless.  A report whose lines
    end with a carriage return before the line feed gives the same parsed
    report as the text with plain line feeds. *)
Theorem carriage_returns_are_ignored (lines : list string) :
  forallb (all_chars (is_not "010")) lines = true ->
  parse_report (unlines (List.map (fun l => l ++ cr) lines)) =
  parse_report (unlines lines).
Proof.
  intros H. unfold parse_report.
  rewrite (getlines_unlines lines H).
  rewrite getlines_unlines.
  - rewrite (scan_lines_trimmed lines (fun l => l ++ cr)); [reflexivity|].
    intros l. apply (trim_append_space l cr). reflexivity.
  - clear - H. induction lines as [|l ls IH]; [reflexivity|].
    simpl in H. apply andb_prop in H as [Hl Hls].
    cbn [List.map forallb]. rewrite all_chars_append, Hl, (IH Hls).
    reflexivity.
Qed.

Lemma carriage_returns_in_a_report :
  parse_report
    (unlines ["Model Number:  Samsung SSD 980 1TB" ++ cr;
              "SMART/Health Information (NVMe Log 0x02)" ++ cr;
              "Temperature:                        42 Celsius" ++ cr]) =
  parse_report
    (unlines ["Model Number:  Samsung SSD 980 1TB";
              "SMART/Health Information (NVMe Log 0x02)";
              "Temperature:                        42 Celsius"]).
Proof.
  exact (carriage_returns_are_ignored
           ["Model Number:  Samsung SSD 980 1TB";
            "SMART/Health Information (NVMe Log 0x02)";
            "Temperature:                        42 Celsius"] eq_refl).
Defined.

(* ================================================================== *)
(** ** The outcome of a run *)
(* ================================================================== *)

(** Both searches are made on every value, the bracket search first; the
    field is the one [field_of_value] gives when both return. *)
Lemma field_of_value_outcome (completes : regex * nat -> string -> bool)
    (val : string) :
  Outcome.field_of_value completes val =
  if searches_return completes val then Ok (field_of_value val)
  else Throw regex_error.
Proof.
  unfold Outcome.field_of_value, Outcome.regex_search, searches_return,
    field_of_value.
  destruct (completes bracket_regex val); [|reflexivity]. cbn [bind andb].
  destruct (Cxx.regex_search val bracket_regex) as [found m]. cbn [fst].
  destruct (completes num_unit_regex val);
    [|destruct found; reflexivity].
  destruct found; cbn [bind];
    destruct (Cxx.regex_search val num_unit_regex) as [[] m2]; reflexivity.
Qed.

Lemma nvme_line_outcome (completes : regex * nat -> string -> bool)
    (out : map Field) (l : string) :
  Outcome.nvme_line completes out l =
  match searched_value l with
  | Some v =>
      if searches_return completes v then nvme_line out l
      else Throw regex_error
  | None => nvme_line out l
  end.
Proof.
  unfold Outcome.nvme_line, nvme_line, searched_value.
  destruct (find l ":" =? npos); [reflexivity|].
  unfold substr_n, substr. rewrite after_find_in_range.
  destruct (Z.ltb_spec (size l) 0) as [H|_];
    [pose proof (size_nonneg l); lia|].
  cbn [bind].
  rewrite field_of_value_outcome.
  now destruct (searches_return completes _).
Qed.

Lemma nvme_loop_outcome (completes : regex * nat -> string -> bool)
    (lines : list string) :
  forall out,
    Outcome.nvme_loop completes lines out =
    if forallb (searches_return completes) (searched_values lines)
    then nvme_loop lines out else Throw regex_error.
Proof.
  induction lines as [|l lines IH]; intros out; [reflexivity|].
  cbn [Outcome.nvme_loop nvme_loop searched_values].
  rewrite nvme_line_outcome.
  destruct (nvme_line_ok out l) as [out' Hl].
  destruct (searched_value l) as [v|].
  - cbn [forallb]. destruct (searches_return completes v); [|reflexivity].
    rewrite Hl. cbn [bind andb]. apply IH.
  - rewrite Hl. cbn [bind]. apply IH.
Qed.

Lemma parse_report_outcome (completes : regex * nat -> string -> bool)
    (out : string) :
  Outcome.parse_report completes out =
  if forallb (searches_return completes) (searched_values (attribute_lines out))
  then parse_report out else Throw regex_error.
Proof.
  unfold Outcome.parse_report, parse_report, attribute_lines, initial_scan,
    Outcome.parse_nvme_section, parse_nvme_section.
  destruct (scan_lines_ok (getlines out) (mkScan [] [] false)) as [st ->].
  cbn [bind]. rewrite nvme_loop_outcome.
  now destruct (forallb _ _).
Qed.

(** A run that returns is the run [SmartInfo.main] describes. *)
Lemma main_outcome (completes : regex * nat -> string -> bool)
    (shell : string -> string) (args : list string) (run : Run) :
  Outcome.main completes shell args = Ok run -> main shell args = Ok run.
Proof.
  unfold Outcome.main, main.
  destruct (scan_args args no_options) as [o|]; [|exact (fun H => H)].
  destruct (empty (find_smartctl shell)); [exact (fun H => H)|].
  destruct (list_mode o); [exact (fun H => H)|].
  destruct (empty (device o)); [exact (fun H => H)|].
  rewrite parse_report_outcome.
  destruct (forallb _ _); [exact (fun H => H) | discriminate].
Qed.

(** With a matcher that always returns, the run is the one of
    [SmartInfo.main]. *)
Lemma main_of_returning_searches (completes : regex * nat -> string -> bool)
    (shell : string -> string) (args : list string) :
  (forall re s, completes re s = true) ->
  Outcome.main completes shell args = main shell args.
Proof.
  intros Hall. unfold Outcome.main, main.
  destruct (scan_args args no_options) as [o|]; [|reflexivity].
  destruct (empty (find_smartctl shell)); [reflexivity|].
  destruct (list_mode o); [reflexivity|].
  destruct (empty (device o)); [reflexivity|].
  rewrite parse_report_outcome.
  replace (forallb (searches_return completes) _) with true; [reflexivity|].
  symmetry. apply forallb_forall. intros v _.
  unfold searches_return. now rewrite !Hall.
Qed.

Lemma length_fill (n : nat) : String.length (fill n) = n.
Proof.
  unfold fill. induction n as [|n IH]; [reflexivity|].
  cbn [repeat string_of_list_ascii String.length]. now rewrite IH.
Qed.

Lemma all_chars_fill (p : ascii -> bool) (n : nat) :
  p "a"%char = true -> all_chars p (fill n) = true.
Proof.
  intros Hp. unfold fill. induction n as [|n IH]; [reflexivity|].
  cbn [repeat string_of_list_ascii all_chars]. now rewrite Hp, IH.
Qed.

(** A text that ends with a closing bracket is not changed by the loop that
    removes white space at the end. *)
Lemma rtrim_bracket (a : string) : rtrim (a ++ "]") = a ++ "]".
Proof.
  unfold rtrim. apply pop_back_while_fixed. right.
  rewrite back_append by discriminate. reflexivity.
Qed.

(** The report with one long annotation: the line is collected, and its
    value is the annotation with its brackets. *)
Lemma long_report_lines (n : nat) :
  attribute_lines (long_report n) = ["Data Units Read: [" ++ fill n ++ "]"]
  /\ searched_value ("Data Units Read: [" ++ fill n ++ "]") =
     Some ("[" ++ fill n ++ "]").
Proof.
  assert (Hr : forall pre, rtrim (pre ++ fill n ++ "]") = pre ++ fill n ++ "]").
  { intros pre. rewrite <- append_assoc. apply rtrim_bracket. }
  split.
  - unfold attribute_lines, long_report. rewrite getlines_unlines.
    + cbn [scan_lines].
      rewrite (scan_line_marker initial_scan
                 "SMART/Health Information (NVMe Log 0x02)" eq_refl).
      cbn [bind].
      rewrite scan_line_attribute.
      * cbn [bind nvme_lines List.app].
        change (ltrim ("Data Units Read: [" ++ fill n ++ "]"))
          with ("Data Units Read: [" ++ fill n ++ "]").
        now rewrite Hr.
      * reflexivity.
      * change (ltrim ("Data Units Read: [" ++ fill n ++ "]"))
          with ("Data Units Read: [" ++ fill n ++ "]").
        rewrite Hr. reflexivity.
    + cbn [forallb]. rewrite andb_true_r. apply andb_true_intro. split.
      * reflexivity.
      * change ("Data Units Read: [" ++ fill n ++ "]")
          with ("Data Units Read: [" ++ (fill n ++ "]")).
        rewrite !all_chars_append, all_chars_fill by reflexivity.
        reflexivity.
  - unfold searched_value, substr. rewrite after_find_in_range.
    change (find ("Data Units Read: [" ++ fill n ++ "]") ":") with 15.
    change (15 =? npos) with false. cbv iota.
    change (drop (Z.to_nat (size_add 15 1))
              ("Data Units Read: [" ++ fill n ++ "]"))
      with (" [" ++ fill n ++ "]").
    unfold trim.
    change (ltrim (" [" ++ fill n ++ "]")) with ("[" ++ fill n ++ "]").
    now rewrite Hr.
Qed.

(** C7, where the program departs from the specification:
    parsing is not total.  The two searches of an attribute line stand
    outside the [try] block of the conversion, so the parse returns exactly
    when both searches return on the value of every line the section
    machine has collected; its result is then the report of
    [parse_report], which no string operation and no conversion keeps from
    being returned.  Otherwise the failure of the search ends the parse.
    What the specification says of a text none of whose lines is recognised
    does hold, no search being made for it: the identity entries are absent
    and the NVMe map is empty. *)
Theorem C7_failed_search_ends_parse
    (completes : regex * nat -> string -> bool) (out : string) :
  Outcome.parse_report completes out =
    (if forallb (searches_return completes)
          (searched_values (attribute_lines out))
     then parse_report out else Throw regex_error)
  /\ (exists r, parse_report out = Ok r)
  /\ (unrecognizable out = true ->
      exists r,
        Outcome.parse_report completes out = Ok r
        /\ model r = None /\ serial r = None /\ firmware r = None
        /\ nvme r = []).
Proof.
  split; [apply parse_report_outcome|]. split; [apply parse_report_ok|].
  intros H. rewrite parse_report_outcome.
  destruct (unrecognizable_parse out H) as [-> ->].
  eexists. split; [reflexivity|]. repeat split.
Qed.

Lemma C7_long_annotation :
  let completes := fun (_ : regex * nat) (s : string) => size s <? 100000 in
  let report := long_report (Z.to_nat 100000) in
  Outcome.parse_report completes report = Throw regex_error
  /\ (exists r, Outcome.parse_report completes EmptyString = Ok r
                /\ model r = None /\ serial r = None /\ firmware r = None
                /\ nvme r = []).
Proof.
  intros completes report. split.
  - rewrite (proj1 (C7_failed_search_ends_parse completes report)).
    unfold report. remember (Z.to_nat 100000) as n eqn:Hn.
    rewrite (proj1 (long_report_lines n)). cbn [searched_values].
    rewrite (proj2 (long_report_lines n)).
    cbn [forallb]. unfold searches_return, completes.
    replace (size ("[" ++ fill n ++ "]") <? 100000) with false;
      [reflexivity|].
    symmetry. apply Z.ltb_ge. unfold size.
    change ("[" ++ fill n ++ "]") with (String "[" (fill n ++ "]")).
    cbn [String.length]. rewrite length_append, length_fill. lia.
  - exact (proj2 (proj2 (C7_failed_search_ends_parse completes EmptyString))
             eq_refl).
Defined.

(** C6, as the program has it:
    a help request among the options prints the usage line and ends the run
    with status 0 before smartctl is looked for.  Otherwise the status is 2
    exactly when smartctl is not found (with the fixed message on standard
    error and nothing on standard output) or when [--list] is not among the
    options and the device - the value of the last [--device] that has one -
    is empty; it is 0 in list mode and in every other run that returns.
    Such a run returns when both searches return on the value of every
    attribute line of the report, and so for a report none of whose lines
    is recognised, the empty one included. *)
Theorem C6_exit_status (completes : regex * nat -> string -> bool)
    (shell : string -> string) (args : list string) :
  let r := Outcome.main completes shell args in
  let dev := last (device_values args) EmptyString in
  if help_requested args then r = Ok (mkRun 0 usage EmptyString)
  else if empty (find_smartctl shell) then
    r = Ok (mkRun 2 EmptyString
              ("smartctl not found. Install smartmontools." ++ nl))
  else if has_option "--list" args then
    exists run, r = Ok run /\ status run = 0
  else if empty dev then
    exists run, r = Ok run /\ status run = 2
  else
    let report := run_smartctl shell (find_smartctl shell) dev in
    (forall run, r = Ok run -> status run = 0)
    /\ (forallb (searches_return completes)
          (searched_values (attribute_lines report)) = true ->
        exists run, r = Ok run)
    /\ (unrecognizable report = true -> exists run, r = Ok run).
Proof.
  cbv zeta. unfold Outcome.main.
  rewrite (scan_args_options (List.length args) args no_options (le_n _)).
  destruct (help_requested args); [reflexivity|].
  cbn [no_options list_mode json_out device include_raw orb].
  destruct (empty (find_smartctl shell)); [reflexivity|].
  destruct (has_option "--list" args);
    [eexists; split; reflexivity|].
  destruct (empty (last (device_values args) EmptyString));
    [eexists; split; reflexivity|].
  rewrite parse_report_outcome.
  destruct (parse_report_ok
              (run_smartctl shell (find_smartctl shell)
                 (last (device_values args) EmptyString))) as [rep Hrep].
  split; [|split].
  - intros run. destruct (forallb _ _); [|discriminate].
    rewrite Hrep. cbn [bind]. intros H. injection H as <-. reflexivity.
  - intros ->. rewrite Hrep. eexists. reflexivity.
  - intros H. destruct (unrecognizable_parse _ H) as [-> ->].
    eexists. reflexivity.
Qed.

Lemma C6_help_and_empty_device :
  let never := fun (_ : regex * nat) (_ : string) => false in
  let host := fun cmd : string =>
    if String.eqb cmd "command -v smartctl 2>/dev/null"
    then "/usr/sbin/smartctl" ++ nl else EmptyString in
  (find_smartctl (fun _ => EmptyString) = EmptyString
   /\ Outcome.main never (fun _ => EmptyString) ["--help"] =
      Ok (mkRun 0 usage EmptyString))
  /\ (find_smartctl host = "/usr/sbin/smartctl"
      /\ Outcome.main never host ["--device"; EmptyString] =
         Ok (mkRun 2 EmptyString ("Please specify --device or --list" ++ nl))).
Proof. intros never host. repeat split. Qed.

Lemma C6_exit_status_examples :
  let never := fun (_ : regex * nat) (_ : string) => false in
  let host := fun cmd : string =>
    if String.eqb cmd "command -v smartctl 2>/dev/null"
    then "/usr/sbin/smartctl" ++ nl else EmptyString in
  (exists run, Outcome.main never host ["--device"; "/dev/sda"] = Ok run
               /\ status run = 0)
  /\ (exists run, Outcome.main never host ["--json"] = Ok run
                  /\ status run = 2)
  /\ (exists run, Outcome.main never host ["--device"; "/dev/sda"; "--list"] =
                  Ok run /\ status run = 0)
  /\ Outcome.main never (fun _ => EmptyString) ["--list"] =
     Ok (mkRun 2 EmptyString
           ("smartctl not found. Install smartmontools." ++ nl))
  /\ Outcome.main never (fun _ => EmptyString) ["--json"; "-h"] =
     Ok (mkRun 0 usage EmptyString).
Proof.
  intros never host. split; [|split; [|split; [|split]]].
  - destruct (C6_exit_status never host ["--device"; "/dev/sda"])
      as (Hzero & _ & Hret).
    destruct (Hret eq_refl) as [run Hrun].
    exists run. split; [exact Hrun | exact (Hzero run Hrun)].
  - exact (C6_exit_status never host ["--json"]).
  - exact (C6_exit_status never host ["--device"; "/dev/sda"; "--list"]).
  - exact (C6_exit_status never (fun _ => EmptyString) ["--list"]).
  - exact (C6_exit_status never (fun _ => EmptyString) ["--json"; "-h"]).
Defined.
